(** * Accessibility snapshot builder of the macOS handler

    A shallow embedding of [UIElement] from
    [libs/computer-server/computer_server/handlers/macos.py]: the
    constructor that walks the platform accessibility tree, the bounding-box
    computation, the child retrieval through [element_attribute], and the two
    identifiers computed by [calculate_hashes].

    Conventions of the embedding.
    - Python [str] is [string]; the strings that are hashed or sorted here are
      ASCII, so [str.encode()] is the list of their characters.
    - [hashlib.md5] is modelled by the function it computes (RFC 1321), on
      32-bit words held in [Z] with the wrap-around written out.
    - A [CGFloat] coordinate is a rational number [Q]: the arithmetic of the
      constructor (one subtraction, two additions, a halving) is taken exact.
    - [CGPoint] structs are mutable objects; the constructor binds the same
      struct to two names and mutates it, so the structs live in a store and
      the names hold references. *)

From Stdlib Require Import ZArith QArith Qminmax Bool List String Ascii Lia.
From Stdlib Require Import Permutation Sorted Mergesort Orders DecimalString.
From Stdlib Require Import OrderedTypeEx RelationClasses Qround.
Import ListNotations.

Local Open Scope string_scope.
Local Open Scope Z_scope.

(* ========================================================================= *)
(** * Part I: the embedding *)

(* ------------------------------------------------------------------------- *)
(** ** [hashlib.md5] *)

Module MD5.

Definition add32 (a b : Z) : Z := (a + b) mod 2 ^ 32.
Definition not32 (a : Z) : Z := Z.lxor a 0xFFFFFFFF.
Definition leftrotate (v c : Z) : Z :=
  Z.lor (Z.shiftl v c mod 2 ^ 32) (Z.shiftr v (32 - c)).

Definition shifts : list Z :=
  [ 7; 12; 17; 22; 7; 12; 17; 22; 7; 12; 17; 22; 7; 12; 17; 22;
    5; 9; 14; 20; 5; 9; 14; 20; 5; 9; 14; 20; 5; 9; 14; 20;
    4; 11; 16; 23; 4; 11; 16; 23; 4; 11; 16; 23; 4; 11; 16; 23;
    6; 10; 15; 21; 6; 10; 15; 21; 6; 10; 15; 21; 6; 10; 15; 21 ].

Definition sines : list Z :=
  [ 0xd76aa478; 0xe8c7b756; 0x242070db; 0xc1bdceee;
    0xf57c0faf; 0x4787c62a; 0xa8304613; 0xfd469501;
    0x698098d8; 0x8b44f7af; 0xffff5bb1; 0x895cd7be;
    0x6b901122; 0xfd987193; 0xa679438e; 0x49b40821;
    0xf61e2562; 0xc040b340; 0x265e5a51; 0xe9b6c7aa;
    0xd62f105d; 0x02441453; 0xd8a1e681; 0xe7d3fbc8;
    0x21e1cde6; 0xc33707d6; 0xf4d50d87; 0x455a14ed;
    0xa9e3e905; 0xfcefa3f8; 0x676f02d9; 0x8d2a4c8a;
    0xfffa3942; 0x8771f681; 0x6d9d6122; 0xfde5380c;
    0xa4beea44; 0x4bdecfa9; 0xf6bb4b60; 0xbebfbc70;
    0x289b7ec6; 0xeaa127fa; 0xd4ef3085; 0x04881d05;
    0xd9d4d039; 0xe6db99e5; 0x1fa27cf8; 0xc4ac5665;
    0xf4292244; 0x432aff97; 0xab9423a7; 0xfc93a039;
    0x655b59c3; 0x8f0ccc92; 0xffeff47d; 0x85845dd1;
    0x6fa87e4f; 0xfe2ce6e0; 0xa3014314; 0x4e0811a1;
    0xf7537e82; 0xbd3af235; 0x2ad7d2bb; 0xeb86d391 ].

Record state := mkState { sa : Z; sb : Z; sc : Z; sd : Z }.

Definition init : state :=
  mkState 0x67452301 0xefcdab89 0x98badcfe 0x10325476.

(** The round function and the index of the message word of step [i]. *)
Definition mix (i b c d : Z) : Z :=
  if i <? 16 then Z.lor (Z.land b c) (Z.land (not32 b) d)
  else if i <? 32 then Z.lor (Z.land d b) (Z.land (not32 d) c)
  else if i <? 48 then Z.lxor b (Z.lxor c d)
  else Z.lxor c (Z.lor b (not32 d)).

Definition word_index (i : Z) : Z :=
  if i <? 16 then i
  else if i <? 32 then (5 * i + 1) mod 16
  else if i <? 48 then (3 * i + 5) mod 16
  else (7 * i) mod 16.

Definition step (m : list Z) (st : state) (isk : Z * (Z * Z)) : state :=
  let '(i, (s, k)) := isk in
  let f := add32 (add32 (add32 (mix i (sb st) (sc st) (sd st)) (sa st)) k)
                 (nth (Z.to_nat (word_index i)) m 0) in
  mkState (sd st) (add32 (sb st) (leftrotate f s)) (sb st) (sc st).

Definition schedule : list (Z * (Z * Z)) :=
  combine (map Z.of_nat (seq 0 64)) (combine shifts sines).

Fixpoint words (n : nat) (bytes : list Z) : list Z :=
  match n, bytes with
  | S n', b0 :: b1 :: b2 :: b3 :: rest =>
      (b0 + 256 * b1 + 65536 * b2 + 16777216 * b3) :: words n' rest
  | _, _ => []
  end.

Definition compress (st : state) (block : list Z) : state :=
  let st' := fold_left (step (words 16 block)) schedule st in
  mkState (add32 (sa st) (sa st')) (add32 (sb st) (sb st'))
          (add32 (sc st) (sc st')) (add32 (sd st) (sd st')).

Fixpoint le_bytes (n : nat) (v : Z) : list Z :=
  match n with
  | O => []
  | S n' => v mod 256 :: le_bytes n' (v / 256)
  end.

Definition pad (msg : list Z) : list Z :=
  let len := Z.of_nat (List.length msg) in
  (msg ++ [0x80] ++ repeat 0 (Z.to_nat ((55 - len) mod 64))
       ++ le_bytes 8 ((8 * len) mod 2 ^ 64))%list.

(** The 64-byte blocks of the padded message; a block takes at least one
    byte, so the number of bytes is fuel enough. *)
Fixpoint blocks (fuel : nat) (bytes : list Z) : list (list Z) :=
  match fuel, bytes with
  | S fuel', _ :: _ => firstn 64 bytes :: blocks fuel' (skipn 64 bytes)
  | _, _ => []
  end.

Definition digest (msg : list Z) : state :=
  let p := pad msg in
  fold_left compress (blocks (List.length p) p) init.

Definition hexchar (v : Z) : ascii :=
  nth (Z.to_nat v)
      (list_ascii_of_string "0123456789abcdef") "0"%char.

Definition hexbyte (b : Z) : string :=
  String (hexchar (b / 16)) (String (hexchar (b mod 16)) "").

Definition hexword (w : Z) : string :=
  String.concat "" (map hexbyte (le_bytes 4 w)).

Definition hex (st : state) : string :=
  hexword (sa st) ++ hexword (sb st) ++ hexword (sc st) ++ hexword (sd st).

(** [string.encode()] on the ASCII strings of this program. *)
Definition encode (s : string) : list Z :=
  map (fun c => Z.of_N (N_of_ascii c)) (list_ascii_of_string s).

(** [md5(string.encode()).hexdigest()] *)
Definition hexdigest (s : string) : string := hex (digest (encode s)).

End MD5.

(* ------------------------------------------------------------------------- *)
(** ** Python built-ins used by the handler *)

(** [max(a, b)]: the first argument unless the second is larger. *)
Definition pymax (a b : Q) : Q := if Qle_bool b a then a else b.

(** [int(q)]: truncation toward zero. *)
Definition int (q : Q) : Z := Z.quot (Qnum q) (Zpos (Qden q)).

(** [f"{q:.0f}"]: round half to even, keep the sign of [q]. *)
Definition round_half_even (q : Q) : Z :=
  let n := Qnum q in
  let d := Zpos (Qden q) in
  let fl := n / d in
  let r := 2 * (n mod d) in
  if r <? d then fl
  else if d <? r then fl + 1
  else if Z.even fl then fl else fl + 1.

Definition format_0f (q : Q) : string :=
  (if Qnum q <? 0 then "-" else "")
  ++ NilZero.string_of_uint (N.to_uint (Z.to_N (Z.abs (round_half_even q)))).

(** [str(b)] on a [bool]. *)
Definition str_bool (b : bool) : string := if b then "True" else "False".

(** [s.replace(" ", "_")] *)
Fixpoint replace_spaces (s : string) : string :=
  match s with
  | EmptyString => EmptyString
  | String c s' =>
      String (if Ascii.eqb c " "%char then "_"%char else c) (replace_spaces s')
  end.

(** [sep.join(items)] is [String.concat sep items]; iterating a [str] yields
    its characters as one-character strings. *)
Definition characters (s : string) : list string :=
  map (fun c => String c EmptyString) (list_ascii_of_string s).

(** [list.sort()] on strings: the ascending order of [str], which compares
    code points. *)
Module StringOrder <: TotalLeBool.
Definition t := string.
Definition leb := String.leb.
Definition leb_total : forall a b, leb a b = true \/ leb b a = true :=
  String.leb_total.
End StringOrder.

Module StringSort := Sort StringOrder.

(* ------------------------------------------------------------------------- *)
(** ** The platform: accessibility elements and their attributes *)

Record CGPoint := mkCGPoint { x : Q; y : Q }.
Record CGSize := mkCGSize { width : Q; height : Q }.

(** A value that is neither an array nor an element. *)
Inductive CFScalar :=
| CFString (s : string)
| CFNumber (n : Q)
| CFBoolean (b : bool).

(** What [kAXValueAttribute] can hold. *)
Inductive CFValue (E : Type) :=
| CFScalarValue (s : CFScalar)
| NSArray (items : list CFScalar)
| AXUIElementValue (e : E).
Arguments CFScalarValue {E}.
Arguments NSArray {E}.
Arguments AXUIElementValue {E}.

(** An [AXUIElementRef] is taken as the attributes the handler reads from
    it; [None] is an attribute the platform does not report
    ([err <> kAXErrorSuccess]). The attributes are what the plain read
    [AXUIElementCopyAttributeValue] returns; [ranged_read_fails] says that
    the ranged read [AXUIElementCopyAttributeValues] of the children
    attribute returns an error for this element, whatever the plain read
    does. *)
#[warnings="-register-all"]
Inductive AXUIElementRef : Type := AXUIElement {
  kAXRoleAttribute : option string;
  kAXTitleAttribute : option string;
  kAXEnabledAttribute : option bool;
  kAXPositionAttribute : option CGPoint;
  kAXSizeAttribute : option CGSize;
  kAXDescriptionAttribute : option string;
  kAXRoleDescriptionAttribute : option string;
  kAXValueAttribute : option (CFValue AXUIElementRef);
  kAXChildrenAttribute : option (list AXUIElementRef);
  kAXVisibleChildrenAttribute : option (list AXUIElementRef);
  ranged_read_fails : bool }.

(** [AXUIElementCopyAttributeValues(element, kAXChildrenAttribute, index,
    maxValues)]: an error, or at most [maxValues] of the children from
    [index] on. *)
Definition AXUIElementCopyAttributeValues (element : AXUIElementRef)
    (index maxValues : nat) : option (list AXUIElementRef) :=
  if ranged_read_fails element then None
  else
    option_map (fun values => firstn maxValues (skipn index values))
               (kAXChildrenAttribute element).

(** [AXUIElementCopyAttributeValue(element, kAXChildrenAttribute)]: the
    plain read, all the children. *)
Definition AXUIElementCopyAttributeValue_children (element : AXUIElementRef)
    : option (list AXUIElementRef) :=
  kAXChildrenAttribute element.

(** [element_attribute(element, kAXChildrenAttribute)]: the ranged read, and
    the plain read when the ranged one fails. *)
Definition element_attribute_children (element : AXUIElementRef)
    : option (list AXUIElementRef) :=
  match AXUIElementCopyAttributeValues element 0 999 with
  | Some value => Some value
  | None => AXUIElementCopyAttributeValue_children element
  end.

(* ------------------------------------------------------------------------- *)
(** ** The store of [CGPoint] structs *)

Definition Ref := nat.
Definition Heap := list CGPoint.

Definition alloc (h : Heap) (p : CGPoint) : Ref * Heap :=
  (List.length h, (h ++ [p])%list).

(** References are only made by [alloc], so a read never misses; the default
    is there for totality. *)
Definition load (h : Heap) (r : Ref) : CGPoint := nth r h (mkCGPoint 0 0).

Fixpoint store (h : Heap) (r : Ref) (p : CGPoint) : Heap :=
  match h, r with
  | [], _ => []
  | _ :: t, O => p :: t
  | a :: t, S r' => a :: store t r' p
  end.

(** [element_value(position, kAXValueCGPointType)]: a fresh struct, or
    [None]. *)
Definition element_value (h : Heap) (attribute : option CGPoint)
    : option Ref * Heap :=
  match attribute with
  | Some p => let '(r, h') := alloc h p in (Some r, h')
  | None => (None, h)
  end.

(** [copy.copy(start_position)] *)
Definition copy_copy (h : Heap) (r : option Ref) : option Ref * Heap :=
  match r with
  | Some r => let '(r', h') := alloc h (load h r) in (Some r', h')
  | None => (None, h)
  end.

(** [obj.x -= v] and [obj.y -= v] *)
Definition isub_x (h : Heap) (r : Ref) (v : Q) : Heap :=
  store h r (mkCGPoint (x (load h r) - v)%Q (y (load h r))).
Definition isub_y (h : Heap) (r : Ref) (v : Q) : Heap :=
  store h r (mkCGPoint (x (load h r)) (y (load h r) - v)%Q).

(* ------------------------------------------------------------------------- *)
(** ** [class UIElement] *)

Record BBox := mkBBox { bx0 : Z; by0 : Z; bx1 : Z; by1 : Z }.

(** The three shapes of [self.value]. *)
Inductive PyValue (U : Type) :=
| PyScalar (s : CFScalar)
| PyList (items : list CFScalar)
| PyUIElement (u : U).
Arguments PyScalar {U}.
Arguments PyList {U}.
Arguments PyUIElement {U}.

(** The attributes of a constructed [UIElement] ([ax_element], the handle it
    was built from, is left out). [center] is [None] when the constructor
    returns before setting it. *)
#[warnings="-register-all"]
Inductive UIElement : Type := mkUIElement {
  role : string;
  name : option string;
  enabled : bool;
  absolute_position : option CGPoint;
  position : option CGPoint;
  size : option CGSize;
  bbox : option BBox;
  visible_bbox : option BBox;
  center : option (Q * Q);
  description : option string;
  role_description : option string;
  value : option (PyValue UIElement);
  max_depth : option Z;
  children : list UIElement;
  identifier : string;
  content_identifier : string }.

(** [_set_bboxes]: the pair [(self.bbox, self.visible_bbox)]. *)
Definition _set_bboxes (position : option CGPoint) (size : option CGSize)
    (parents_visible_bbox : option BBox) : option BBox * option BBox :=
  match position, size with
  | Some p, Some s =>
      let bbox := mkBBox (int (x p)) (int (y p))
                         (int (x p + width s)) (int (y p + height s)) in
      match parents_visible_bbox with
      | Some pv =>
          if (bx0 bbox >? bx1 pv) || (by0 bbox >? by1 pv)
             || (bx1 bbox <? bx0 pv) || (by1 bbox <? by0 pv)
          then (Some bbox, None)
          else (Some bbox,
                Some (mkBBox (Z.max (bx0 bbox) (bx0 pv))
                             (Z.max (by0 bbox) (by0 pv))
                             (Z.min (bx1 bbox) (bx1 pv))
                             (Z.min (by1 bbox) (by1 pv))))
      | None => (Some bbox, Some bbox)
      end
  | _, _ => (None, None)
  end.

(** [hash_from_string] *)
Definition hash_from_string (s : string) : string :=
  if (s =? "")%string then "" else MD5.hexdigest s.

(** [component_hash], on the four attributes of [self] it reads. *)
Definition component_hash (position : option CGPoint) (size : option CGSize)
    (enabled : bool) (role : string) : string :=
  match position, size with
  | Some p, Some s =>
      let position_string := format_0f (x p) ++ ";" ++ format_0f (y p) in
      let size_string := format_0f (width s) ++ ";" ++ format_0f (height s) in
      let enabled_string := str_bool enabled in
      let role_string := role in
      hash_from_string
        (position_string ++ size_string ++ enabled_string ++ role_string)
  | _, _ => ""
  end.

(** The two digests [children_content_hash] computes before combining them:
    [content_hash] and [content_structure_hash]. *)
Definition content_hash (children : list UIElement) : string :=
  hash_from_string
    (String.concat "" (StringSort.sort (map content_identifier children))).

Definition content_structure_hash (children : list UIElement) : string :=
  hash_from_string (String.concat "" (map identifier children)).

(** [children_content_hash] *)
Definition children_content_hash (children : list UIElement) : string :=
  if (List.length children =? 0)%nat then ""
  else
    let all_content_hashes := StringSort.sort (map content_identifier children) in
    if (List.length all_content_hashes =? 0)%nat then ""
    else
      hash_from_string
        (String.concat (content_hash children)
                       (characters (content_structure_hash children))).

(** [self.max_depth is None or self.max_depth > 0], and the depth handed to
    a child: [self.max_depth - 1 if self.max_depth is not None else None]. *)
Definition expands (max_depth : option Z) : bool :=
  match max_depth with
  | None => true
  | Some d => d >? 0
  end.

Definition child_depth (max_depth : option Z) : option Z :=
  option_map (fun d => d - 1) max_depth.

Definition Constructor : Type :=
  AXUIElementRef -> Q -> Q -> option Z -> option BBox -> UIElement.

(** The list [found_children] that [_get_children] fills: the children
    attribute, and the visible children only when that one is [None]. *)
Definition found_children (element : AXUIElementRef) : list AXUIElementRef :=
  let children := element_attribute_children element in
  let visible_children := kAXVisibleChildrenAttribute element in
  match children with
  | Some c => c
  | None => match visible_children with Some v => v | None => [] end
  end.

(** [_get_children]; [construct] is the class constructor, and of [self] the
    method reads [max_depth] and [visible_bbox]. Its parameter
    [start_position] is not used and is left out. *)
Definition _get_children (construct : Constructor)
    (self_max_depth : option Z) (self_visible_bbox : option BBox)
    (element : AXUIElementRef) (offset_x offset_y : Q) : list UIElement :=
  if expands self_max_depth then
    map (fun child =>
           construct child offset_x offset_y
                     (child_depth self_max_depth) self_visible_bbox)
        (found_children element)
  else [].

(** The body of [__init__]. The two places where it constructs further
    [UIElement]s are parameters: [get_children] stands for
    [self._get_children(element, start_position, offset_x, offset_y)] and
    [nested] for [UIElement(attribute_value, offset_x, offset_y)]. *)
Definition __init__
    (get_children : option Z -> option BBox -> Q -> Q -> list UIElement)
    (nested : AXUIElementRef -> Q -> Q -> UIElement)
    (element : AXUIElementRef) (offset_x offset_y : Q)
    (max_depth : option Z) (parents_visible_bbox : option BBox) : UIElement :=
  (* Set role *)
  let role :=
    match kAXRoleAttribute element with Some r => r | None => "No role" end in
  (* Set name *)
  let name := option_map replace_spaces (kAXTitleAttribute element) in
  (* Set enabled *)
  let enabled :=
    match kAXEnabledAttribute element with Some b => b | None => false end in
  (* Set position and size *)
  let position := kAXPositionAttribute element in
  let size := kAXSizeAttribute element in
  let '(start_position, h) := element_value [] position in
  let '(offset_x, offset_y) :=
    match start_position with
    | Some r =>
        if (role =? "AXWindow")%string
        then (x (load h r), y (load h r))
        else (offset_x, offset_y)
    | None => (offset_x, offset_y)
    end in
  let '(absolute_position, h) := copy_copy h start_position in
  let self_position := start_position in
  let h :=
    match self_position with
    | Some r => isub_y (isub_x h r (pymax 0 offset_x)) r (pymax 0 offset_y)
    | None => h
    end in
  let self_size := size in
  let '(bbox, visible_bbox) :=
    _set_bboxes (option_map (load h) self_position) self_size
                parents_visible_bbox in
  (* Set component center *)
  match start_position, self_size with
  | Some sp, Some sz =>
      let center :=
        ((x (load h sp) + offset_x + width sz / 2)%Q,
         (y (load h sp) + offset_y + height sz / 2)%Q) in
      let description := kAXDescriptionAttribute element in
      let role_description := kAXRoleDescriptionAttribute element in
      let attribute_value := kAXValueAttribute element in
      (* Set value *)
      let value :=
        match attribute_value with
        | None => None
        | Some (NSArray items) => Some (PyList items)
        | Some (AXUIElementValue v) =>
            Some (PyUIElement (nested v offset_x offset_y))
        | Some (CFScalarValue s) => Some (PyScalar s)
        end in
      (* Set children *)
      let children :=
        if expands max_depth
        then get_children max_depth visible_bbox offset_x offset_y
        else [] in
      (* calculate_hashes *)
      let identifier :=
        component_hash (option_map (load h) self_position) self_size
                       enabled role in
      let content_identifier := children_content_hash children in
      mkUIElement role name enabled
                  (option_map (load h) absolute_position)
                  (option_map (load h) self_position) self_size
                  bbox visible_bbox (Some center)
                  description role_description value max_depth
                  children identifier content_identifier
  | _, _ =>
      (* print("Position is None"); return *)
      mkUIElement role name enabled
                  (option_map (load h) absolute_position)
                  (option_map (load h) self_position) self_size
                  bbox visible_bbox None
                  (Some "") (Some "") None max_depth
                  [] "" ""
  end.

(** One call of the class constructor, its nested constructor calls going to
    [construct]. *)
Definition UIElement_call (construct : Constructor) : Constructor :=
  fun element offset_x offset_y max_depth parents_visible_bbox =>
    __init__
      (fun self_max_depth self_visible_bbox offset_x offset_y =>
         _get_children construct self_max_depth self_visible_bbox
                       element offset_x offset_y)
      (fun attribute_value offset_x offset_y =>
         construct attribute_value offset_x offset_y None None)
      element offset_x offset_y max_depth parents_visible_bbox.

(** [map f (firstn n l)] in one pass. *)
Fixpoint map_firstn {A B : Type} (f : A -> B) (n : nat) (l : list A) : list B :=
  match n, l with
  | S n', a :: l' => f a :: map_firstn f n' l'
  | _, _ => []
  end.

(** The class constructor [UIElement(element, offset_x, offset_y, max_depth,
    parents_visible_bbox)], by recursion on the platform tree. The loop of
    [_get_children] is written over the attribute lists themselves so that
    the recursion is structural; [new_UIElement_eq] below shows that it is
    [UIElement_call] applied to itself. *)
Fixpoint new_UIElement (element : AXUIElementRef) (offset_x offset_y : Q)
    (max_depth : option Z) (parents_visible_bbox : option BBox)
    {struct element} : UIElement :=
  __init__
    (fun self_max_depth self_visible_bbox offset_x offset_y =>
       let construct child :=
         new_UIElement child offset_x offset_y
                       (child_depth self_max_depth) self_visible_bbox in
       if expands self_max_depth then
         match kAXChildrenAttribute element with
         | Some values =>
             if ranged_read_fails element then map construct values
             else map_firstn construct 999 values
         | None =>
             match kAXVisibleChildrenAttribute element with
             | Some values => map construct values
             | None => []
             end
         end
       else [])
    (fun attribute_value offset_x offset_y =>
       new_UIElement attribute_value offset_x offset_y None None)
    element offset_x offset_y max_depth parents_visible_bbox.

(** The depth limit and offsets of the entry point:
    [UIElement(window)] in [get_accessibility_tree]. *)
Definition build (element : AXUIElementRef) (max_depth : option Z) : UIElement :=
  new_UIElement element 0 0 max_depth None.

(* ------------------------------------------------------------------------- *)
(** ** What one constructor call returns *)

Definition role_of (e : AXUIElementRef) : string :=
  match kAXRoleAttribute e with Some r => r | None => "No role" end.

Definition enabled_of (e : AXUIElementRef) : bool :=
  match kAXEnabledAttribute e with Some b => b | None => false end.

(** The offsets after the window test of the constructor. *)
Definition origin (e : AXUIElementRef) (offset_x offset_y : Q) : Q * Q :=
  match kAXPositionAttribute e with
  | Some p =>
      if (role_of e =? "AXWindow")%string then (x p, y p)
      else (offset_x, offset_y)
  | None => (offset_x, offset_y)
  end.

(** The struct behind [self.position] after the two [-=]. *)
Definition relative (p : CGPoint) (o : Q * Q) : CGPoint :=
  mkCGPoint (x p - pymax 0 (fst o))%Q (y p - pymax 0 (snd o))%Q.

Definition value_of (construct : Constructor) (e : AXUIElementRef)
    (o : Q * Q) : option (PyValue UIElement) :=
  match kAXValueAttribute e with
  | None => None
  | Some (NSArray items) => Some (PyList items)
  | Some (AXUIElementValue v) =>
      Some (PyUIElement (construct v (fst o) (snd o) None None))
  | Some (CFScalarValue s) => Some (PyScalar s)
  end.

(** ["".join(items)] is the concatenation of the items. *)
Fixpoint joined (items : list string) : string :=
  match items with
  | [] => ""
  | s :: rest => s ++ joined rest
  end.

(* ------------------------------------------------------------------------- *)
(** ** Sample platform trees *)

Module Samples.

Definition element (role : string) (position : option CGPoint)
    (size : option CGSize) (children : option (list AXUIElementRef))
    : AXUIElementRef :=
  AXUIElement (Some role) (Some "my title") (Some true) position size
              (Some "a description") (Some "a role description") None
              children None false.

Definition at_ (px py : Z) : option CGPoint :=
  Some (mkCGPoint (inject_Z px) (inject_Z py)).
Definition sized (w h : Z) : option CGSize :=
  Some (mkCGSize (inject_Z w) (inject_Z h)).

(** A window at (100,100) of 800x600 holding a button at (150,130) of
    80x20. *)
Definition button : AXUIElementRef :=
  element "AXButton" (at_ 150 130) (sized 80 20) None.
Definition window : AXUIElementRef :=
  element "AXWindow" (at_ 100 100) (sized 800 600) (Some [button]).

(** Three levels: window, group, button. *)
Definition group : AXUIElementRef :=
  element "AXGroup" (at_ 120 120) (sized 200 100) (Some [button]).
Definition window3 : AXUIElementRef :=
  element "AXWindow" (at_ 100 100) (sized 800 600) (Some [group]).

(** Two groups with the same geometry, role and enabled flag; only the first
    one has a child. *)
Definition empty_group : AXUIElementRef :=
  element "AXGroup" (at_ 120 120) (sized 200 100) (Some []).
Definition window_ab : AXUIElementRef :=
  element "AXWindow" (at_ 100 100) (sized 800 600) (Some [group; empty_group]).
Definition window_ba : AXUIElementRef :=
  element "AXWindow" (at_ 100 100) (sized 800 600) (Some [empty_group; group]).

(** A group like [group] once offsets are taken off, but with another
    title, no description, a value and no children. *)
Definition other_group : AXUIElementRef :=
  AXUIElement (Some "AXGroup") (Some "another title") (Some true)
              (at_ 20 20) (sized 200 100) None None
              (Some (CFScalarValue (CFString "text"))) (Some []) None false.

(** An element without a position that has a description, a value and a
    child; and a window holding it. *)
Definition unplaced : AXUIElementRef :=
  AXUIElement (Some "AXGroup") (Some "my title") (Some true)
              None (sized 200 100)
              (Some "a description") (Some "a role description")
              (Some (CFScalarValue (CFString "text"))) (Some [button]) None
              false.
Definition window_unplaced : AXUIElementRef :=
  element "AXWindow" (at_ 100 100) (sized 800 600) (Some [unplaced]).

(** A window at the origin with a child that starts on the window's right
    edge. *)
Definition beside : AXUIElementRef :=
  element "AXButton" (at_ 800 0) (sized 50 50) None.
Definition window_edge : AXUIElementRef :=
  element "AXWindow" (at_ 0 0) (sized 800 600) (Some [beside]).

(** Four levels: window, pane, group, button. *)
Definition pane : AXUIElementRef :=
  element "AXScrollArea" (at_ 110 110) (sized 400 300) (Some [group]).
Definition window4 : AXUIElementRef :=
  element "AXWindow" (at_ 100 100) (sized 800 600) (Some [pane]).

(** A text field whose value is another element, a menu with one item. *)
Definition menu : AXUIElementRef :=
  element "AXMenu" (at_ 10 40) (sized 100 200) (Some [button]).
Definition field : AXUIElementRef :=
  AXUIElement (Some "AXTextField") (Some "my title") (Some true)
              (at_ 10 10) (sized 100 20)
              (Some "a description") (Some "a role description")
              (Some (AXUIElementValue menu)) (Some []) None false.

(** A text field whose value is an element without a position (and with a
    child). *)
Definition field_unplaced : AXUIElementRef :=
  AXUIElement (Some "AXTextField") (Some "my title") (Some true)
              (at_ 10 10) (sized 100 20)
              (Some "a description") (Some "a role description")
              (Some (AXUIElementValue unplaced)) (Some []) None false.

(** A list that reports its thousand rows as visible children only. *)
Definition crowded : AXUIElementRef :=
  AXUIElement (Some "AXList") (Some "my title") (Some true)
              (at_ 0 0) (sized 100 1000)
              (Some "a description") (Some "a role description")
              None None (Some (repeat button 1000)) false.

(** A list that reports a thousand rows as its children. *)
Definition long_list : AXUIElementRef :=
  element "AXList" (at_ 0 0) (sized 100 1000) (Some (repeat button 1000)).

(** The same list on a platform where the ranged read of its children
    returns an error. *)
Definition unranged : AXUIElementRef :=
  AXUIElement (Some "AXList") (Some "my title") (Some true)
              (at_ 0 0) (sized 100 1000)
              (Some "a description") (Some "a role description")
              None (Some (repeat button 1000)) None true.

(** Constructed nodes. The children of the sample windows are constructed
    with the window's offsets and visible box. *)
Definition window_box : option BBox := Some (mkBBox 0 0 800 600).

Definition window_node : UIElement := build window None.
Definition button_node : UIElement := new_UIElement button 100 100 None window_box.
Definition window3_node : UIElement := build window3 None.
Definition group_node : UIElement := new_UIElement group 100 100 None window_box.
Definition other_group_node : UIElement :=
  new_UIElement other_group 0 0 (Some 0) None.
Definition unplaced_node : UIElement :=
  new_UIElement unplaced 100 100 None window_box.
Definition beside_node : UIElement := new_UIElement beside 0 0 None window_box.
Definition field_node : UIElement := build field (Some 0).
Definition menu_node : UIElement := new_UIElement menu 0 0 None None.
Definition crowded_node : UIElement := build crowded None.
Definition long_list_node : UIElement := build long_list None.
Definition unranged_node : UIElement := build unranged None.
Definition window4_limited (d : Z) : UIElement := build window4 (Some d).
Definition window4_full : UIElement := build window4 None.

End Samples.

(* ------------------------------------------------------------------------- *)
(** ** The content identifier *)

(** The content hash in the words of the specification: the empty string
    without children, and otherwise the digest of the sorted-content digest
    followed by the ordered-structure digest. The two digests are the ones
    the code computes, [content_hash] and [content_structure_hash]. *)
Definition contentHash_spec (children : list UIElement) : string :=
  match children with
  | [] => ""
  | _ :: _ =>
      hash_from_string (content_hash children ++ content_structure_hash children)
  end.

(** The list [all_hashes] of [children_content_hash]: the identifiers of
    the children in their order. [content_structure_hash] is
    [hash_from_string] of these joined. *)
Definition all_hashes (children : list UIElement) : list string :=
  map identifier children.

(* ------------------------------------------------------------------------- *)
(** ** Properties of every node of a constructed tree *)

(** The offsets a node hands to its children and to its value node: its own
    absolute position when it is a window, the inherited ones otherwise. *)
Definition node_origin (o : Q * Q) (n : UIElement) : Q * Q :=
  match absolute_position n with
  | Some a => if (role n =? "AXWindow")%string then (x a, y a) else o
  | None => o
  end.

(** [every_node P o pvb n]: [P] holds of [n] and of every node below it,
    each one taken with the offsets it inherits and with the visible box of
    its parent ([None] for a value node, which is constructed without
    one). *)
Fixpoint every_node (P : Q * Q -> option BBox -> UIElement -> Prop)
    (o : Q * Q) (pvb : option BBox) (n : UIElement) {struct n} : Prop :=
  P o pvb n
  /\ (fix every (l : list UIElement) : Prop :=
        match l with
        | [] => True
        | c :: l' =>
            every_node P (node_origin o n) (visible_bbox n) c /\ every l'
        end) (children n)
  /\ match value n with
     | Some (PyUIElement v) => every_node P (node_origin o n) None v
     | _ => True
     end.

(** The stored position of [n] is its absolute position minus
    [max(0, offset)], the offset being the one in effect for [n]: its own
    absolute position if [n] is a window, the inherited offset [o]
    otherwise. *)
Definition position_is_relative (o : Q * Q) (pvb : option BBox)
    (n : UIElement) : Prop :=
  forall p, position n = Some p ->
    exists a, absolute_position n = Some a
      /\ x p = (x a - pymax 0 (fst (node_origin o n)))%Q
      /\ y p = (y a - pymax 0 (snd (node_origin o n)))%Q.

(** The node is the one constructed from a platform element [e] with the
    offsets [o] and the visible box [pvb]; its absolute position is the
    position the platform reports for [e], and its stored position is that
    one minus [max(0, offset)], the offset being [origin e]: the position
    of [e] when [e] is a window, the inherited [o] otherwise. *)
Definition position_from_platform (o : Q * Q) (pvb : option BBox)
    (n : UIElement) : Prop :=
  exists e d,
    n = new_UIElement e (fst o) (snd o) d pvb
    /\ absolute_position n = kAXPositionAttribute e
    /\ position n
       = option_map
           (fun a =>
              let w := origin e (fst o) (snd o) in
              mkCGPoint (x a - pymax 0 (fst w)) (y a - pymax 0 (snd w)))
           (kAXPositionAttribute e)
    /\ node_origin o n = origin e (fst o) (snd o).

(** The node has no depth limit. *)
Definition unlimited (o : Q * Q) (pvb : option BBox) (n : UIElement) : Prop :=
  max_depth n = None.

(** The center is computed from the struct that [self.position] has already
    shifted: stored position plus offset plus half the size. For a
    non-negative offset this is the absolute position plus half the size. *)
Definition center_from_position (o : Q * Q) (pvb : option BBox)
    (n : UIElement) : Prop :=
  forall a s, absolute_position n = Some a -> size n = Some s ->
    let o' := node_origin o n in
    exists p,
      position n = Some p
      /\ center n = Some ((x p + fst o' + width s / 2)%Q,
                          (y p + snd o' + height s / 2)%Q)
      /\ (x p + fst o' + width s / 2
          == x a - pymax 0 (fst o') + fst o' + width s / 2)%Q
      /\ (y p + snd o' + height s / 2
          == y a - pymax 0 (snd o') + snd o' + height s / 2)%Q
      /\ ((0 <= fst o')%Q ->
          (x p + fst o' + width s / 2 == x a + width s / 2)%Q)
      /\ ((0 <= snd o')%Q ->
          (y p + snd o' + height s / 2 == y a + height s / 2)%Q).

(* ------------------------------------------------------------------------- *)
(** ** Visible bounding boxes *)

(** [v] lies within [p], side by side. *)
Definition inside (v p : BBox) : Prop :=
  bx0 p <= bx0 v /\ by0 p <= by0 v /\ bx1 v <= bx1 p /\ by1 v <= by1 p.

(** The test of [_set_bboxes]: [b] lies strictly beyond one side of [p]. *)
Definition separated (b p : BBox) : Prop :=
  bx0 b > bx1 p \/ by0 b > by1 p \/ bx1 b < bx0 p \/ by1 b < by0 p.

Definition intersection (b p : BBox) : BBox :=
  mkBBox (Z.max (bx0 b) (bx0 p)) (Z.max (by0 b) (by0 p))
         (Z.min (bx1 b) (bx1 p)) (Z.min (by1 b) (by1 p)).

Definition area (b : BBox) : Z := (bx1 b - bx0 b) * (by1 b - by0 b).

(** The two boxes share a region of positive width and height. *)
Definition overlap (b p : BBox) : Prop :=
  Z.max (bx0 b) (bx0 p) < Z.min (bx1 b) (bx1 p)
  /\ Z.max (by0 b) (by0 p) < Z.min (by1 b) (by1 p).

(** The points of a box, and inclusion of boxes as sets of points. *)
Definition contains (b : BBox) (px py : Z) : Prop :=
  bx0 b <= px <= bx1 b /\ by0 b <= py <= by1 b.

(** What [_set_bboxes] leaves in a node constructed under the parent's
    visible box [pvb]. *)
Definition clipped_by_parent (o : Q * Q) (pvb : option BBox)
    (n : UIElement) : Prop :=
  match pvb with
  | None => visible_bbox n = bbox n
  | Some p =>
      (forall v, visible_bbox n = Some v -> inside v p)
      /\ (forall b, bbox n = Some b -> separated b p -> visible_bbox n = None)
      /\ (forall b, bbox n = Some b -> ~ separated b p ->
          visible_bbox n = Some (intersection b p))
  end.

(* ------------------------------------------------------------------------- *)
(** ** The depth limit *)

(** The attributes of a node that do not depend on what is below it:
    all but [children], [content_identifier] and [max_depth] itself. *)
Definition same_own_fields (a b : UIElement) : Prop :=
  role a = role b /\ name a = name b /\ enabled a = enabled b
  /\ absolute_position a = absolute_position b /\ position a = position b
  /\ size a = size b /\ bbox a = bbox b /\ visible_bbox a = visible_bbox b
  /\ center a = center b /\ description a = description b
  /\ role_description a = role_description b /\ value a = value b
  /\ identifier a = identifier b.

(** [limited] is [full] cut below depth [n]: down to depth [n] the nodes
    correspond one to one and have the same own attributes, and the nodes
    at depth [n] have no children. *)
Fixpoint cut_at (n : nat) (limited full : UIElement) : Prop :=
  same_own_fields limited full
  /\ match n with
     | O => children limited = []
     | S n' => Forall2 (cut_at n') (children limited) (children full)
     end.

(* ------------------------------------------------------------------------- *)
(** ** How many children are read *)

(** [e] with another children attribute. *)
Definition with_children (e : AXUIElementRef)
    (children : option (list AXUIElementRef)) : AXUIElementRef :=
  AXUIElement (kAXRoleAttribute e) (kAXTitleAttribute e)
              (kAXEnabledAttribute e) (kAXPositionAttribute e)
              (kAXSizeAttribute e) (kAXDescriptionAttribute e)
              (kAXRoleDescriptionAttribute e) (kAXValueAttribute e)
              children (kAXVisibleChildrenAttribute e) (ranged_read_fails e).

(* ------------------------------------------------------------------------- *)
(** ** [UIElement.to_dict] *)

(** [str(n)] on a non-negative [int]. *)
Definition decimal (n : Z) : string :=
  NilZero.string_of_uint (N.to_uint (Z.to_N n)).

(** [f"{q:.2f}"]: round half to even at the second decimal, keep the sign
    of [q]. *)
Definition format_2f (q : Q) : string :=
  let r := Z.abs (round_half_even (q * 100)) in
  (if Qnum q <? 0 then "-" else "")
  ++ decimal (r / 100) ++ "."
  ++ (if r mod 100 <? 10 then "0" else "") ++ decimal (r mod 100).

(** The dictionary [to_dict] returns, one field per key. In ["value"] a
    [PyUIElement d] stands for the text [json.dumps(d, indent=4)], [d] being
    the dictionary of the value node; the text itself is not modelled. *)
#[warnings="-register-all"]
Inductive Dict : Type := mkDict {
  dict_id : string;
  dict_name : option string;
  dict_role : string;
  dict_description : option string;
  dict_role_description : option string;
  dict_value : option (PyValue Dict);
  dict_absolute_position : string;
  dict_position : string;
  dict_size : string;
  dict_enabled : bool;
  dict_bbox : option BBox;
  dict_visible_bbox : option BBox;
  dict_children : list Dict }.

(** [to_dict]; its inner [children_to_dict] is [map to_dict]. *)
Fixpoint to_dict (self : UIElement) : Dict :=
  let value :=
    match value self with
    | Some (PyUIElement u) => Some (PyUIElement (to_dict u))
    | Some (PyScalar s) => Some (PyScalar s)
    | Some (PyList items) => Some (PyList items)
    | None => None
    end in
  let absolute_position :=
    match absolute_position self with
    | Some p => format_2f (x p) ++ ";" ++ format_2f (y p)
    | None => ""
    end in
  let position :=
    match position self with
    | Some p => format_2f (x p) ++ ";" ++ format_2f (y p)
    | None => ""
    end in
  let size :=
    match size self with
    | Some s => format_0f (width s) ++ ";" ++ format_0f (height s)
    | None => ""
    end in
  mkDict (identifier self) (name self) (role self) (description self)
         (role_description self) value absolute_position position size
         (enabled self) (bbox self) (visible_bbox self)
         (map to_dict (children self)).

(** The nodes of a tree and the entries of a dictionary, parents before
    children, children in order (value nodes are not listed). *)
Fixpoint nodes (n : UIElement) : list UIElement :=
  n :: flat_map nodes (children n).

Fixpoint entries (d : Dict) : list Dict :=
  d :: flat_map entries (dict_children d).

(* ------------------------------------------------------------------------- *)
(** ** [MacOSAccessibilityHandler]: the window list and the tree *)

(** A running application as the handler sees it: the properties read from
    [NSRunningApplication], and what [AXUIElementCopyAttributeValue] gives
    for [kAXWindowsAttribute] of the application element made from its pid
    ([None] when the call fails). *)
Record NSRunningApplication := mkApplication {
  localizedName : string;
  processIdentifier : Z;
  activationPolicy : Z;
  isActive : bool;
  kAXWindowsAttribute : option (list AXUIElementRef) }.

(** The dictionary built per application, in [get_all_windows] with the
    window handles and in [get_accessibility_tree] with the window trees. *)
Record AppEntry (W : Type) := mkAppEntry {
  app_name : string;
  pid : Z;
  frontmost : bool;
  has_windows : bool;
  windows : list W }.
Arguments mkAppEntry {W}.
Arguments app_name {W}.
Arguments pid {W}.
Arguments frontmost {W}.
Arguments has_windows {W}.
Arguments windows {W}.

(** [get_application_windows]: the windows when the call succeeds with a
    non-empty array, the empty list otherwise. *)
Definition get_application_windows (app : NSRunningApplication)
    : list AXUIElementRef :=
  match kAXWindowsAttribute app with
  | Some (w :: ws) => w :: ws
  | _ => []
  end.

(** [get_all_windows]: the applications whose activation policy is 0
    (regular), in the order of [runningApplications()]. *)
Fixpoint get_all_windows (running_apps : list NSRunningApplication)
    : list (AppEntry AXUIElementRef) :=
  match running_apps with
  | [] => []
  | app :: rest =>
      if negb (activationPolicy app =? 0) then get_all_windows rest
      else
        let app_windows := get_application_windows app in
        mkAppEntry (localizedName app) (processIdentifier app) (isActive app)
                   (0 <? List.length app_windows)%nat app_windows
        :: get_all_windows rest
  end.

(** What [get_accessibility_tree] returns: [{"success": False, "error": e}]
    or [{"success": True, "frontmost_application": a, "windows": ws}]. *)
Inductive TreeResult :=
| Failure (error : string)
| Success (frontmost_application : string)
          (processed_windows : list (AppEntry Dict)).

Definition newline : string := String "010"%char EmptyString.

(** [str(n)] on an [int]. *)
Definition str_int (n : Z) : string :=
  (if n <? 0 then "-" else "") ++ decimal (Z.abs n).

(** One line of the list of applications in the error message. *)
Definition application_line {W : Type} (w : AppEntry W) : string :=
  "- " ++ app_name w ++ " (PID: " ++ str_int (pid w)
  ++ ", Active: " ++ str_bool (frontmost w)
  ++ ", Has Windows: " ++ str_bool (has_windows w) ++ ")".

Definition no_accessible_windows {W : Type} (windows : list (AppEntry W))
    : string :=
  "No accessible windows found. Available applications:" ++ newline
  ++ String.concat newline (map application_line windows)
  ++ newline ++ "Please ensure:" ++ newline
  ++ "1. The terminal has accessibility permissions" ++ newline
  ++ "2. The applications have visible windows" ++ newline
  ++ "3. Try clicking on a window you want to inspect".

Definition nonempty {A : Type} (l : list A) : bool :=
  match l with [] => false | _ :: _ => true end.

Section AccessibilityTree.

(** [raises window]: [UIElement(window)] or [window_element.to_dict()]
    raises for this window, as a [RecursionError] does on a deep tree or an
    error of the bridge on a window that has gone. The constructor of this
    development is total, so which windows raise is taken as given. *)
Variable raises : AXUIElementRef -> bool.

(** The inner loop: the dictionaries of the window trees. A window for
    which the construction raises is skipped ([except: continue]). *)
Fixpoint window_trees (app_windows : list AXUIElementRef) : list Dict :=
  match app_windows with
  | [] => []
  | window :: rest =>
      if raises window then window_trees rest
      else to_dict (build window None) :: window_trees rest
  end.

(** The loop over the applications: those with windows ([if app_windows:]),
    each with the dictionaries of its window trees. *)
Fixpoint process_windows (all_windows : list (AppEntry AXUIElementRef))
    : list (AppEntry Dict) :=
  match all_windows with
  | [] => []
  | app :: rest =>
      match windows app with
      | [] => process_windows rest
      | app_windows =>
          mkAppEntry (app_name app) (pid app) (frontmost app)
                     (has_windows app) (window_trees app_windows)
          :: process_windows rest
      end
  end.

(** [get_accessibility_tree], on what [runningApplications()] returns. *)
Definition get_accessibility_tree (running_apps : list NSRunningApplication)
    : TreeResult :=
  let all_windows := get_all_windows running_apps in
  match all_windows with
  | [] => Failure "No visible windows found in the system"
  | first :: _ =>
      let frontmost_app :=
        match find (fun w => frontmost w) all_windows with
        | Some w => w
        | None => first
        end in
      let app_name := app_name frontmost_app in
      let processed_windows := process_windows all_windows in
      if negb (existsb (fun app => nonempty (windows app)) processed_windows)
      then Failure (no_accessible_windows all_windows)
      else Success app_name processed_windows
  end.

End AccessibilityTree.

(** The applications [get_all_windows] keeps, and those with a window. *)
Definition is_regular (app : NSRunningApplication) : bool :=
  activationPolicy app =? 0.

Definition has_window (app : NSRunningApplication) : bool :=
  nonempty (get_application_windows app).

(** The application [get_accessibility_tree] names as frontmost: the first
    regular one that is active, or else the first regular one. *)
Definition named_frontmost (running_apps : list NSRunningApplication)
    : option NSRunningApplication :=
  match find isActive (filter is_regular running_apps) with
  | Some app => Some app
  | None => hd_error (filter is_regular running_apps)
  end.

(** The entry [get_all_windows] makes for an application, and the entry
    [get_accessibility_tree] makes from it. *)
Definition entry_of (app : NSRunningApplication) : AppEntry AXUIElementRef :=
  mkAppEntry (localizedName app) (processIdentifier app) (isActive app)
             (has_window app) (get_application_windows app).

Definition tree_entry (raises : AXUIElementRef -> bool)
    (w : AppEntry AXUIElementRef) : AppEntry Dict :=
  mkAppEntry (app_name w) (pid w) (frontmost w) (has_windows w)
             (window_trees raises (windows w)).

(** The windows of an application whose trees are built. *)
Definition built_windows (raises : AXUIElementRef -> bool)
    (app : NSRunningApplication) : list AXUIElementRef :=
  filter (fun window => negb (raises window)) (get_application_windows app).

Definition has_built_window (raises : AXUIElementRef -> bool)
    (app : NSRunningApplication) : bool :=
  nonempty (built_windows raises app).

(** A desktop with four running applications: one without windows, one
    that is not regular, one whose windows cannot be read, and one with two
    windows. *)
Module Desktop.

Definition finder : NSRunningApplication :=
  mkApplication "Finder" 301 0 true (Some []).
Definition dock : NSRunningApplication :=
  mkApplication "Dock" 302 1 false (Some [Samples.window]).
Definition agent : NSRunningApplication :=
  mkApplication "Agent" 303 0 false None.
Definition safari : NSRunningApplication :=
  mkApplication "Safari" 304 0 false
                (Some [Samples.window; Samples.window3]).

Definition running_apps : list NSRunningApplication :=
  [finder; dock; agent; safari].

(** Three behaviours of the construction: it never raises; it always
    raises; it raises for the windows that hold a group. *)
Definition none_raises (window : AXUIElementRef) : bool := false.
Definition all_raise (window : AXUIElementRef) : bool := true.
Definition group_raises (window : AXUIElementRef) : bool :=
  existsb (fun c => (role_of c =? "AXGroup")%string) (found_children window).

End Desktop.

(* ------------------------------------------------------------------------- *)
(** ** [find_element] *)

(** The first result of [f] over a list: the loop
    [for child in children: result = f(child); if result: return result]. *)
Fixpoint first_result {A R : Type} (f : A -> option R) (l : list A)
    : option R :=
  match l with
  | [] => None
  | a :: l' =>
      match f a with
      | Some r => Some r
      | None => first_result f l'
      end
  end.

(** [first_result f (firstn n l)] and [flat_map f (firstn n l)] in one
    pass. *)
Fixpoint first_result_firstn {A R : Type} (f : A -> option R) (n : nat)
    (l : list A) : option R :=
  match n, l with
  | S n', a :: l' =>
      match f a with
      | Some r => Some r
      | None => first_result_firstn f n' l'
      end
  | _, _ => None
  end.

Fixpoint flat_map_firstn {A B : Type} (f : A -> list B) (n : nat)
    (l : list A) : list B :=
  match n, l with
  | S n', a :: l' => (f a ++ flat_map_firstn f n' l')%list
  | _, _ => []
  end.

(** [criterion and actual != criterion]: a criterion that is [None] or the
    empty string rejects nothing. *)
Definition rejects (criterion actual : option string) : bool :=
  match criterion with
  | None => false
  | Some c =>
      negb (c =? "")%string
      && negb (match actual with
               | Some a => (a =? c)%string
               | None => false
               end)
  end.

Section FindElement.

(** [str(v)] on the value attribute as the bridge returns it, and
    [serialize_node] (whose dictionary always has keys and so is true in
    [if result:]), are taken as given. *)
Variable str : option (CFValue AXUIElementRef) -> string.
Variable D : Type.
Variable serialize_node : AXUIElementRef -> D.

Variables role title value : option string.

Definition match_element (element : AXUIElementRef) : bool :=
  if rejects role (kAXRoleAttribute element) then false
  else if rejects title (kAXTitleAttribute element) then false
  else if rejects value (Some (str (kAXValueAttribute element))) then false
  else true.

(** One call of [search_tree], its recursive calls going to [search]. *)
Definition search_tree_call (search : AXUIElementRef -> option D)
    (element : AXUIElementRef) : option D :=
  if match_element element then Some (serialize_node element)
  else
    match element_attribute_children element with
    | Some children => first_result search children
    | None => None
    end.

(** [search_tree], by recursion on the platform tree; the loop is written
    over the children attribute itself, as in [new_UIElement]. *)
Fixpoint search_tree (element : AXUIElementRef) : option D :=
  if match_element element then Some (serialize_node element)
  else
    match kAXChildrenAttribute element with
    | Some values =>
        if ranged_read_fails element then first_result search_tree values
        else first_result_firstn search_tree 999 values
    | None => None
    end.

(** [find_element(role, title, value)], [system] being the system-wide
    element: the ["element"] of the result. *)
Definition find_element (system : AXUIElementRef) : option D :=
  search_tree system.

End FindElement.

(** The elements [search_tree] can visit, parents before children: each
    element and, below it, what [element_attribute] returns for its
    children attribute. *)
Fixpoint visited (element : AXUIElementRef) : list AXUIElementRef :=
  element
  :: match kAXChildrenAttribute element with
     | Some values =>
         if ranged_read_fails element then flat_map visited values
         else flat_map_firstn visited 999 values
     | None => []
     end.

(* ------------------------------------------------------------------------- *)
(** ** Well-formed boxes *)

Definition well_formed (b : BBox) : Prop := bx0 b <= bx1 b /\ by0 b <= by1 b.

Definition well_formed_opt (b : option BBox) : Prop :=
  match b with Some b => well_formed b | None => True end.

(** A node with a non-negative size under a well-formed parent box has
    well-formed boxes, and its visible box lies inside its own box. *)
Definition boxes_well_formed (o : Q * Q) (pvb : option BBox)
    (n : UIElement) : Prop :=
  (forall s, size n = Some s -> (0 <= width s)%Q /\ (0 <= height s)%Q) ->
  well_formed_opt pvb ->
  well_formed_opt (bbox n) /\ well_formed_opt (visible_bbox n)
  /\ (forall b v, bbox n = Some b -> visible_bbox n = Some v -> inside v b).

(* ------------------------------------------------------------------------- *)
(** ** Moving a window on the screen *)

(** The platform tree of [e] after everything in it has moved by
    [(tx, ty)]: the same elements, every reported position shifted. *)
Fixpoint moved (tx ty : Q) (e : AXUIElementRef) : AXUIElementRef :=
  AXUIElement
    (kAXRoleAttribute e) (kAXTitleAttribute e) (kAXEnabledAttribute e)
    (option_map (fun p => mkCGPoint (x p + tx) (y p + ty))
                (kAXPositionAttribute e))
    (kAXSizeAttribute e) (kAXDescriptionAttribute e)
    (kAXRoleDescriptionAttribute e)
    match kAXValueAttribute e with
    | Some (AXUIElementValue v) => Some (AXUIElementValue (moved tx ty v))
    | Some (NSArray items) => Some (NSArray items)
    | Some (CFScalarValue s) => Some (CFScalarValue s)
    | None => None
    end
    (option_map (map (moved tx ty)) (kAXChildrenAttribute e))
    (option_map (map (moved tx ty)) (kAXVisibleChildrenAttribute e))
    (ranged_read_fails e).

(** All the elements of a platform tree: children, visible children and
    value elements. *)
Fixpoint elements (e : AXUIElementRef) : list AXUIElementRef :=
  (e :: match kAXChildrenAttribute e with
        | Some l => flat_map elements l
        | None => []
        end
     ++ match kAXVisibleChildrenAttribute e with
        | Some l => flat_map elements l
        | None => []
        end
     ++ match kAXValueAttribute e with
        | Some (AXUIElementValue v) => elements v
        | _ => []
        end)%list.

(** Every window of the tree is at non-negative screen coordinates before
    and after the move. *)
Definition windows_stay_on_screen (tx ty : Q) (e : AXUIElementRef) : Prop :=
  forall w p,
    In w (elements e) ->
    role_of w = "AXWindow" ->
    kAXPositionAttribute w = Some p ->
    (0 <= x p)%Q /\ (0 <= y p)%Q /\ (0 <= x p + tx)%Q /\ (0 <= y p + ty)%Q.

(** A dictionary with ["absolute_position"] blanked in every entry. *)
Fixpoint without_absolute_position (d : Dict) : Dict :=
  mkDict (dict_id d) (dict_name d) (dict_role d) (dict_description d)
         (dict_role_description d)
         match dict_value d with
         | Some (PyUIElement v) =>
             Some (PyUIElement (without_absolute_position v))
         | Some (PyScalar s) => Some (PyScalar s)
         | Some (PyList items) => Some (PyList items)
         | None => None
         end
         "" (dict_position d) (dict_size d) (dict_enabled d) (dict_bbox d)
         (dict_visible_bbox d)
         (map without_absolute_position (dict_children d)).

(** The offsets [o'] are the offsets [o] moved by [(tx, ty)], as far as
    [max(0, offset)] shows. *)
Definition moved_offsets (tx ty : Q) (o o' : Q * Q) : Prop :=
  (pymax 0 (fst o') == pymax 0 (fst o) + tx)%Q
  /\ (pymax 0 (snd o') == pymax 0 (snd o) + ty)%Q.

(** What the move leaves unchanged in a constructed node. *)
Definition same_after_move (a b : UIElement) : Prop :=
  without_absolute_position (to_dict a) = without_absolute_position (to_dict b)
  /\ identifier a = identifier b
  /\ content_identifier a = content_identifier b
  /\ visible_bbox a = visible_bbox b.

(* ========================================================================= *)
(** * Part II: lemmas and theorems *)

(* ------------------------------------------------------------------------- *)
(** ** Test vectors of [hashlib.md5] *)

Example md5_empty : MD5.hexdigest "" = "d41d8cd98f00b204e9800998ecf8427e".
Proof. vm_compute. reflexivity. Qed.

Example md5_abc : MD5.hexdigest "abc" = "900150983cd24fb0d6963f7d28e17f72".
Proof. vm_compute. reflexivity. Qed.

Example md5_window :
  MD5.hexdigest "0;0100;100TrueAXWindow" = "74ec3768d266d400f15be50a94931384".
Proof. vm_compute. reflexivity. Qed.

Example md5_two_blocks :
  MD5.hexdigest
    "xxxxxxxxxxxxxxxxxxxxxxxxxxxxxxxxxxxxxxxxxxxxxxxxxxxxxxxxxxxxxxxxxxxxxxxxxxxxxxxxxxxxxxxxxxxxxxxxxxxxxxxxxxxxxxxxxxxxxxxx"
  = "fb98667f98096de92620b64f46e1c5b5".
Proof. vm_compute. reflexivity. Qed.

Lemma md5_hexdigest_length (s : string) : String.length (MD5.hexdigest s) = 32%nat.
Proof. reflexivity. Qed.

(* ------------------------------------------------------------------------- *)
(** ** The constructor equation *)

Lemma map_firstn_eq {A B : Type} (f : A -> B) (n : nat) (l : list A) :
  map_firstn f n l = map f (firstn n l).
Proof.
  revert l; induction n as [|n IH]; intros [|a l]; simpl; try reflexivity.
  now rewrite IH.
Qed.

Lemma __init___ext get_children1 get_children2 nested1 nested2
    element offset_x offset_y max_depth parents_visible_bbox :
  (forall d vb ox oy, get_children1 d vb ox oy = get_children2 d vb ox oy) ->
  (forall v ox oy, nested1 v ox oy = nested2 v ox oy) ->
  __init__ get_children1 nested1 element offset_x offset_y max_depth
           parents_visible_bbox
  = __init__ get_children2 nested2 element offset_x offset_y max_depth
             parents_visible_bbox.
Proof.
  intros Hc Hn. unfold __init__.
  destruct (element_value [] (kAXPositionAttribute element)) as [sp h].
  destruct (match sp with
            | Some r =>
                if ((match kAXRoleAttribute element with
                     | Some r0 => r0 | None => "No role" end) =? "AXWindow")%string
                then (x (load h r), y (load h r))
                else (offset_x, offset_y)
            | None => (offset_x, offset_y)
            end) as [ox oy].
  destruct (copy_copy h sp) as [ap h'].
  destruct (_set_bboxes _ _ _) as [bb vb].
  destruct sp as [sp|]; [|reflexivity].
  destruct (kAXSizeAttribute element) as [sz|]; [|reflexivity].
  rewrite Hc.
  destruct (kAXValueAttribute element) as [[s|items|v]|];
    try rewrite Hn; reflexivity.
Qed.

Lemma new_UIElement_eq element offset_x offset_y max_depth parents_visible_bbox :
  new_UIElement element offset_x offset_y max_depth parents_visible_bbox
  = UIElement_call new_UIElement element offset_x offset_y max_depth
                   parents_visible_bbox.
Proof.
  destruct element as [ro ti en po si de rd va ch vi rf].
  unfold UIElement_call. cbn [new_UIElement].
  apply __init___ext; [|reflexivity].
  intros d vb ox oy. unfold _get_children, found_children,
    element_attribute_children, AXUIElementCopyAttributeValues,
    AXUIElementCopyAttributeValue_children.
  cbn [kAXChildrenAttribute kAXVisibleChildrenAttribute ranged_read_fails].
  destruct (expands d); [|reflexivity].
  destruct ch as [values|];
    [|destruct rf; cbn [option_map]; destruct vi; reflexivity].
  destruct rf; cbn [option_map skipn]; [reflexivity|].
  apply map_firstn_eq.
Qed.

(* ------------------------------------------------------------------------- *)
(** ** Induction on the platform tree *)

Lemma Forall_firstn {A : Type} (P : A -> Prop) (n : nat) (l : list A) :
  Forall P l -> Forall P (firstn n l).
Proof.
  revert l; induction n as [|n IH]; intros l H; [constructor|].
  destruct H as [|a l Ha Hl]; simpl; constructor; auto.
Qed.

Section TreeInduction.
Variable P : AXUIElementRef -> Prop.
Hypothesis node :
  forall e,
    Forall P (found_children e) ->
    match kAXValueAttribute e with
    | Some (AXUIElementValue v) => P v
    | _ => True
    end ->
    P e.

Lemma AXUIElementRef_tree_ind : forall e, P e.
Proof.
  fix IH 1. intros [ro ti en po si de rd va ch vi rf].
  assert (all : forall l : list AXUIElementRef,
             (fix sub (l : list AXUIElementRef) : Prop :=
                match l with [] => True | a :: l' => P a /\ sub l' end) l ->
             Forall P l).
  { induction l as [|a l IHl]; intros H; constructor; [apply H | apply IHl, H]. }
  apply node.
  - unfold found_children, element_attribute_children,
      AXUIElementCopyAttributeValues, AXUIElementCopyAttributeValue_children.
    cbn [kAXChildrenAttribute kAXVisibleChildrenAttribute ranged_read_fails].
    destruct ch as [l|].
    + assert (Hl : Forall P l).
      { apply all. revert l.
        fix IHl 1. intros [|a l]; [exact I | split; [apply IH | apply IHl]]. }
      destruct rf; cbn [option_map skipn]; [exact Hl|].
      now apply Forall_firstn.
    + assert (Hv : Forall P (match vi with Some v => v | None => [] end)).
      { destruct vi as [l|]; [|constructor]. apply all. revert l.
        fix IHl 1. intros [|a l]; [exact I | split; [apply IH | apply IHl]]. }
      destruct rf; exact Hv.
  - simpl. destruct va as [[s|items|v]|]; try exact I. apply IH.
Qed.
End TreeInduction.

(* ------------------------------------------------------------------------- *)
(** ** What one constructor call returns *)

Lemma _get_children_expands construct d vb e ox oy :
  (if expands d then _get_children construct d vb e ox oy else [])
  = _get_children construct d vb e ox oy.
Proof. unfold _get_children. destruct (expands d); reflexivity. Qed.

Lemma new_UIElement_present e ox oy d pvb p s :
  kAXPositionAttribute e = Some p ->
  kAXSizeAttribute e = Some s ->
  let o := origin e ox oy in
  let rel := relative p o in
  let boxes := _set_bboxes (Some rel) (Some s) pvb in
  let kids := _get_children new_UIElement d (snd boxes) e (fst o) (snd o) in
  new_UIElement e ox oy d pvb
  = mkUIElement (role_of e) (option_map replace_spaces (kAXTitleAttribute e))
      (enabled_of e) (Some p) (Some rel) (Some s) (fst boxes) (snd boxes)
      (Some ((x rel + fst o + width s / 2)%Q, (y rel + snd o + height s / 2)%Q))
      (kAXDescriptionAttribute e) (kAXRoleDescriptionAttribute e)
      (value_of new_UIElement e o) d kids
      (component_hash (Some rel) (Some s) (enabled_of e) (role_of e))
      (children_content_hash kids).
Proof.
  intros Hp Hs o rel boxes kids.
  rewrite new_UIElement_eq.
  subst kids boxes rel o.
  unfold UIElement_call, __init__, origin, value_of, role_of, enabled_of,
    relative.
  rewrite Hp, Hs. cbn [element_value alloc List.length app].
  destruct ((match kAXRoleAttribute e with
             | Some r => r | None => "No role" end) =? "AXWindow")%string;
    cbn -[_set_bboxes component_hash children_content_hash _get_children pymax
          Qminus Qplus Qdiv];
    destruct (_set_bboxes _ _ pvb) as [bb vb];
    cbn -[component_hash children_content_hash _get_children pymax
          Qminus Qplus Qdiv];
    rewrite _get_children_expands; reflexivity.
Qed.

Lemma new_UIElement_absent e ox oy d pvb :
  kAXPositionAttribute e = None \/ kAXSizeAttribute e = None ->
  new_UIElement e ox oy d pvb
  = mkUIElement (role_of e) (option_map replace_spaces (kAXTitleAttribute e))
      (enabled_of e)
      (kAXPositionAttribute e)
      (option_map (fun p => relative p (origin e ox oy)) (kAXPositionAttribute e))
      (kAXSizeAttribute e) None None None
      (Some "") (Some "") None d [] "" "".
Proof.
  intros H. rewrite new_UIElement_eq.
  unfold UIElement_call, __init__, origin, role_of, enabled_of.
  destruct (kAXPositionAttribute e) as [p|].
  - destruct H as [H|H]; [discriminate|]. rewrite H.
    cbn [element_value alloc List.length app].
    destruct ((match kAXRoleAttribute e with
               | Some r => r | None => "No role" end) =? "AXWindow")%string;
      reflexivity.
  - cbn. destruct (kAXSizeAttribute e); reflexivity.
Qed.

(* ------------------------------------------------------------------------- *)
(** ** Sorting strings *)

Lemma leb_cases (a b : string) :
  String.leb a b = true <-> a = b \/ String_as_OT.lt a b.
Proof.
  unfold String.leb. split.
  - destruct (String.compare a b) eqn:E; try discriminate; intros _.
    + left. now apply String_as_OT.cmp_eq.
    + right. now apply String_as_OT.cmp_lt.
  - intros [->|H].
    + pose proof (proj2 (String_as_OT.cmp_eq b b) eq_refl) as H.
      unfold String_as_OT.cmp in H. now rewrite H.
    + apply String_as_OT.cmp_lt in H. unfold String_as_OT.cmp in H.
      now rewrite H.
Qed.

Lemma leb_transitive : Transitive (fun a b : string => is_true (String.leb a b)).
Proof.
  intros a b c Hab Hbc. unfold is_true in *.
  apply leb_cases in Hab. apply leb_cases in Hbc. apply leb_cases.
  destruct Hab as [->|Hab]; [assumption|].
  destruct Hbc as [<-|Hbc]; [now right|].
  right. eapply String_as_OT.lt_trans; eassumption.
Qed.

(** A list of strings has one ascending arrangement. *)
Lemma sorted_permutation_unique (l1 l2 : list string) :
  StronglySorted (fun a b => is_true (String.leb a b)) l1 ->
  StronglySorted (fun a b => is_true (String.leb a b)) l2 ->
  Permutation l1 l2 -> l1 = l2.
Proof.
  intros S1; revert l2.
  induction S1 as [|a t1 St1 IH Ha]; intros l2 S2 HP.
  - now apply Permutation_nil in HP.
  - destruct S2 as [|b t2 St2 Hb].
    + symmetry in HP. now apply Permutation_nil in HP.
    + assert (a = b) as <-.
      { assert (In a (b :: t2)) as Hin1
          by (eapply Permutation_in; [exact HP | now left]).
        assert (In b (a :: t1)) as Hin2
          by (eapply Permutation_in; [symmetry; exact HP | now left]).
        destruct Hin1 as [->|Hin1]; [reflexivity|].
        destruct Hin2 as [->|Hin2]; [reflexivity|].
        apply String.leb_antisym.
        - exact (proj1 (Forall_forall _ _) Ha b Hin2).
        - exact (proj1 (Forall_forall _ _) Hb a Hin1). }
      f_equal. apply IH; [assumption|].
      eapply Permutation_cons_inv; exact HP.
Qed.

Lemma sort_permutation (l1 l2 : list string) :
  Permutation l1 l2 -> StringSort.sort l1 = StringSort.sort l2.
Proof.
  intros HP. apply sorted_permutation_unique.
  - apply StringSort.StronglySorted_sort, leb_transitive.
  - apply StringSort.StronglySorted_sort, leb_transitive.
  - rewrite <- (StringSort.Permuted_sort l1), <- (StringSort.Permuted_sort l2).
    exact HP.
Qed.

(* ------------------------------------------------------------------------- *)
(** ** Joining strings *)

Lemma append_length (a b : string) :
  String.length (a ++ b) = (String.length a + String.length b)%nat.
Proof. induction a as [|c a IH]; simpl; [reflexivity | now rewrite IH]. Qed.

Lemma append_assoc (a b c : string) : ((a ++ b) ++ c = a ++ (b ++ c))%string.
Proof. induction a as [|ch a IH]; simpl; [reflexivity | now rewrite IH]. Qed.

Lemma append_inj_l (a b c : string) : (a ++ b = a ++ c)%string -> b = c.
Proof.
  induction a as [|ch a IH]; simpl; intros H; [assumption|].
  injection H as H. auto.
Qed.

Lemma append_same_length (a b c d : string) :
  String.length a = String.length b -> (a ++ c = b ++ d)%string -> a = b.
Proof.
  revert b; induction a as [|ch a IH]; intros [|ch' b]; simpl; intros HL H;
    try discriminate; [reflexivity|].
  injection HL as HL. injection H as -> H. f_equal. now apply (IH b).
Qed.

Lemma concat_empty_separator (items : list string) :
  String.concat "" items = joined items.
Proof.
  induction items as [|s [|s' rest] IH]; try reflexivity.
  - simpl. clear IH. induction s; simpl; congruence.
  - change (String.concat "" (s :: s' :: rest))
      with (s ++ "" ++ String.concat "" (s' :: rest))%string.
    rewrite IH. reflexivity.
Qed.

Lemma joined_app (l1 l2 : list string) :
  joined (l1 ++ l2) = (joined l1 ++ joined l2)%string.
Proof.
  induction l1 as [|s l1 IH]; simpl; [reflexivity|].
  now rewrite IH, append_assoc.
Qed.

(* ------------------------------------------------------------------------- *)
(** ** The content identifier *)

Lemma sort_nonempty (l : list string) :
  l <> [] -> StringSort.sort l <> [].
Proof.
  intros Hl Hs. apply Hl. apply Permutation_nil.
  rewrite <- Hs. symmetry. apply StringSort.Permuted_sort.
Qed.

(** What the code computes for a node with children: the sorted-content
    digest is put between the characters of the ordered-structure digest. *)
Lemma children_content_hash_nonempty (children : list UIElement) :
  children <> [] ->
  children_content_hash children
  = hash_from_string
      (String.concat (content_hash children)
                     (characters (content_structure_hash children))).
Proof.
  intros H. unfold children_content_hash.
  destruct children as [|c cs]; [contradiction|]. cbn [List.length Nat.eqb].
  destruct (StringSort.sort (map content_identifier (c :: cs))) eqn:E.
  - exfalso. eapply sort_nonempty; [|exact E]. discriminate.
  - reflexivity.
Qed.

Lemma content_identifier_eq e ox oy d pvb :
  content_identifier (new_UIElement e ox oy d pvb)
  = children_content_hash (children (new_UIElement e ox oy d pvb)).
Proof.
  destruct (kAXPositionAttribute e) as [p|] eqn:Hp.
  - destruct (kAXSizeAttribute e) as [s|] eqn:Hs.
    + rewrite (new_UIElement_present e ox oy d pvb p s Hp Hs). reflexivity.
    + rewrite new_UIElement_absent by (now right). reflexivity.
  - rewrite new_UIElement_absent by (now left). reflexivity.
Qed.

(** C1 (the code departs from the claim). On the three-level sample tree
    the root's content identifier is not the digest of the two digests put
    one after the other: [children_content_hash] calls
    [content_hash.join(content_structure_hash)], which puts the
    sorted-content digest between the 32 characters of the
    ordered-structure digest. Without children the result is the empty
    string, as claimed. *)
Theorem children_content_hash_splices :
  children_content_hash [] = ""
  /\ content_hash (children Samples.window3_node)
     = "8e044d272fd9588fe303900ed8b42063"
  /\ content_structure_hash (children Samples.window3_node)
     = "ba6e81cba3921a79c54ebe217cd579c7"
  /\ content_identifier Samples.window3_node
     = "8f9c3cfb2aa7dd0ca5d662f9776f4ddf"
  /\ contentHash_spec (children Samples.window3_node)
     = "60a18703a06782b101b867cfd04a2d96"
  /\ content_identifier Samples.window3_node
     <> contentHash_spec (children Samples.window3_node).
Proof.
  vm_compute. repeat split; discriminate.
Qed.

(* ------------------------------------------------------------------------- *)
(** ** The identifier *)

Lemma identifier_eq e ox oy d pvb :
  let node := new_UIElement e ox oy d pvb in
  identifier node
  = component_hash (position node) (size node) (enabled node) (role node).
Proof.
  cbv zeta.
  destruct (kAXPositionAttribute e) as [p|] eqn:Hp.
  - destruct (kAXSizeAttribute e) as [s|] eqn:Hs.
    + rewrite (new_UIElement_present e ox oy d pvb p s Hp Hs). reflexivity.
    + rewrite new_UIElement_absent by (now right).
      cbn [identifier position size]. rewrite Hp, Hs. reflexivity.
  - rewrite new_UIElement_absent by (now left).
    cbn [identifier position size]. rewrite Hp. reflexivity.
Qed.

(** C2. The identifier of a constructed node is [component_hash] of its
    position, size, enabled flag and role: two constructed nodes that agree
    on these four attributes have the same identifier, whatever the
    elements they were built from (names, descriptions, values, children)
    and whatever the other constructor arguments; and the identifier is the
    empty string when the position or the size is absent. *)
Theorem identifier_pure_function
    (e1 e2 : AXUIElementRef) (ox1 oy1 ox2 oy2 : Q) (d1 d2 : option Z)
    (pvb1 pvb2 : option BBox) :
  let n1 := new_UIElement e1 ox1 oy1 d1 pvb1 in
  let n2 := new_UIElement e2 ox2 oy2 d2 pvb2 in
  position n1 = position n2 ->
  size n1 = size n2 ->
  enabled n1 = enabled n2 ->
  role n1 = role n2 ->
  identifier n1 = identifier n2
  /\ identifier n1
     = component_hash (position n1) (size n1) (enabled n1) (role n1)
  /\ (position n1 = None \/ size n1 = None -> identifier n1 = "").
Proof.
  intros n1 n2 Hp Hs He Hr.
  pose proof (identifier_eq e1 ox1 oy1 d1 pvb1) as H1.
  pose proof (identifier_eq e2 ox2 oy2 d2 pvb2) as H2.
  cbv zeta in H1, H2. fold n1 in H1. fold n2 in H2.
  repeat split.
  - rewrite H1, H2. congruence.
  - exact H1.
  - intros [H|H]; rewrite H1, H; [reflexivity|].
    destruct (position n1); reflexivity.
Qed.

Lemma identifier_pure_function_witness :
  (name Samples.group_node <> name Samples.other_group_node
   /\ description Samples.group_node <> description Samples.other_group_node
   /\ value Samples.group_node <> value Samples.other_group_node
   /\ children Samples.group_node <> children Samples.other_group_node)
  /\ identifier Samples.group_node = identifier Samples.other_group_node
  /\ identifier Samples.unplaced_node = "".
Proof.
  split; [|split].
  - vm_compute. repeat split; discriminate.
  - apply (identifier_pure_function
             Samples.group Samples.other_group 100 100 0 0 None (Some 0)
             Samples.window_box None); vm_compute; reflexivity.
  - apply (identifier_pure_function
             Samples.unplaced Samples.unplaced 100 100 100 100 None None
             Samples.window_box Samples.window_box); try reflexivity.
    left. vm_compute. reflexivity.
Defined.

(* ------------------------------------------------------------------------- *)
(** ** Reordering children *)

Lemma content_hash_permutation (cs cs' : list UIElement) :
  Permutation cs cs' -> content_hash cs = content_hash cs'.
Proof.
  intros HP. unfold content_hash. f_equal. f_equal.
  apply sort_permutation. now apply Permutation_map.
Qed.

Lemma swap_permutation {A : Type} (l1 l2 l3 : list A) (a b : A) :
  Permutation (l1 ++ a :: l2 ++ b :: l3) (l1 ++ b :: l2 ++ a :: l3).
Proof.
  apply Permutation_app_head.
  transitivity (a :: b :: l2 ++ l3).
  - constructor. symmetry. apply Permutation_middle.
  - transitivity (b :: a :: l2 ++ l3); [constructor|].
    constructor. apply Permutation_middle.
Qed.

Lemma joined_swap (l1 l2 l3 : list string) (a b : string) :
  String.length a = String.length b ->
  joined (l1 ++ a :: l2 ++ b :: l3) = joined (l1 ++ b :: l2 ++ a :: l3) ->
  a = b.
Proof.
  intros HL H. rewrite !joined_app in H. apply append_inj_l in H.
  simpl in H. eapply append_same_length; eassumption.
Qed.

(** The identifier of a constructed node is empty or a digest of 32
    characters. *)
Lemma identifier_length e ox oy d pvb :
  identifier (new_UIElement e ox oy d pvb) = ""
  \/ String.length (identifier (new_UIElement e ox oy d pvb)) = 32%nat.
Proof.
  pose proof (identifier_eq e ox oy d pvb) as H. cbv zeta in H. rewrite H.
  unfold component_hash, hash_from_string.
  destruct (position _); [|now left]. destruct (size _); [|now left].
  destruct (_ =? "")%string; [now left | right; apply md5_hexdigest_length].
Qed.

(** The claim of C3 fails as stated: the two groups of the sample windows
    have different content identifiers, and the windows list them in
    opposite orders, yet the ordered-structure digest is the same for both
    orders (the two groups have the same identifier), and so is the
    content identifier of the window. *)
Lemma swapped_children_same_structure_digest :
  map content_identifier (children (build Samples.window_ab None))
  = ["0c66061f507d21210cda4f4c5d22c51f"; ""]
  /\ map content_identifier (children (build Samples.window_ba None))
     = [""; "0c66061f507d21210cda4f4c5d22c51f"]
  /\ content_structure_hash (children (build Samples.window_ab None))
     = content_structure_hash (children (build Samples.window_ba None))
  /\ content_identifier (build Samples.window_ab None)
     = content_identifier (build Samples.window_ba None).
Proof. vm_compute. repeat split. Qed.

Lemma swap_identifiers (l1 l2 l3 : list UIElement) (a b : UIElement) :
  identifier a = identifier b ->
  map identifier (l1 ++ a :: l2 ++ b :: l3)
  = map identifier (l1 ++ b :: l2 ++ a :: l3).
Proof.
  intros H. rewrite !map_app. cbn [map]. rewrite !map_app. cbn [map].
  now rewrite H.
Qed.

(** [children_content_hash] reads the children through the multiset of
    their content identifiers and the sequence of their identifiers. *)
Lemma children_content_hash_reordered (cs cs' : list UIElement) :
  Permutation cs cs' -> map identifier cs = map identifier cs' ->
  content_structure_hash cs = content_structure_hash cs'
  /\ children_content_hash cs = children_content_hash cs'.
Proof.
  intros HP Hi.
  assert (Hs : content_structure_hash cs = content_structure_hash cs')
    by (unfold content_structure_hash; now rewrite Hi).
  split; [exact Hs|].
  destruct cs as [|c cs].
  - apply Permutation_nil in HP. now subst.
  - destruct cs' as [|c' cs'].
    + symmetry in HP. now apply Permutation_nil in HP.
    + rewrite !children_content_hash_nonempty by discriminate.
      now rewrite Hs, (content_hash_permutation _ _ HP).
Qed.

(** Two different strings have different digests unless MD5 collides on
    them. *)
Lemma hash_from_string_differs (s s' : string) :
  s <> s' ->
  (MD5.hexdigest s = MD5.hexdigest s' -> s = s') ->
  hash_from_string s <> hash_from_string s'.
Proof.
  intros Hne Hinj. unfold hash_from_string.
  destruct (String.eqb_spec s ""), (String.eqb_spec s' ""); subst.
  - now contradiction Hne.
  - intros H. pose proof (md5_hexdigest_length s') as L.
    rewrite <- H in L. discriminate.
  - intros H. pose proof (md5_hexdigest_length s) as L.
    rewrite H in L. discriminate.
  - intros H. apply Hne, Hinj, H.
Qed.

(** C3, amended. Permuting the children never changes the sorted-content
    digest. The ordered-structure digest and the content identifier depend
    on the order of the children through the sequence of their identifiers
    only: a reordering that leaves that sequence as it is, such as the
    exchange of two children with the same identifier, whatever their
    content, changes neither. The exchange of two children whose
    identifiers differ and have the same length, as two digests have,
    changes the string that the ordered-structure pass hashes, and with it
    the ordered-structure digest unless MD5 collides on the two strings;
    the sorted-content digest is the same before and after. *)
Theorem reordering_children
    (cs cs' l1 l2 l3 : list UIElement) (a b : UIElement) :
  let before := (l1 ++ a :: l2 ++ b :: l3)%list in
  let after := (l1 ++ b :: l2 ++ a :: l3)%list in
  (Permutation cs cs' -> content_hash cs = content_hash cs')
  /\ (Permutation cs cs' -> all_hashes cs = all_hashes cs' ->
      content_structure_hash cs = content_structure_hash cs'
      /\ children_content_hash cs = children_content_hash cs')
  /\ content_hash before = content_hash after
  /\ (identifier a = identifier b ->
      content_structure_hash before = content_structure_hash after
      /\ children_content_hash before = children_content_hash after)
  /\ (identifier a <> identifier b ->
      String.length (identifier a) = String.length (identifier b) ->
      content_structure_hash before
      = hash_from_string (String.concat "" (all_hashes before))
      /\ content_structure_hash after
         = hash_from_string (String.concat "" (all_hashes after))
      /\ String.concat "" (all_hashes before)
         <> String.concat "" (all_hashes after)
      /\ ((MD5.hexdigest (String.concat "" (all_hashes before))
           = MD5.hexdigest (String.concat "" (all_hashes after)) ->
           String.concat "" (all_hashes before)
           = String.concat "" (all_hashes after)) ->
          content_structure_hash before <> content_structure_hash after)).
Proof.
  cbv zeta. split; [|split; [|split; [|split]]].
  - apply content_hash_permutation.
  - apply children_content_hash_reordered.
  - apply content_hash_permutation, swap_permutation.
  - intros H. apply children_content_hash_reordered.
    + apply swap_permutation.
    + now apply swap_identifiers.
  - intros Hne HL.
    assert (Hs : String.concat "" (all_hashes (l1 ++ a :: l2 ++ b :: l3))
                 <> String.concat "" (all_hashes (l1 ++ b :: l2 ++ a :: l3))).
    { unfold all_hashes. rewrite !concat_empty_separator, !map_app.
      cbn [map]. rewrite !map_app. cbn [map]. intros H. apply Hne.
      eapply joined_swap; eassumption. }
    split; [reflexivity|]. split; [reflexivity|]. split; [exact Hs|].
    intros Hinj. unfold content_structure_hash.
    now apply hash_from_string_differs.
Qed.

Lemma reordering_children_witness :
  content_hash [Samples.button_node; Samples.group_node]
  = content_hash [Samples.group_node; Samples.button_node]
  /\ content_structure_hash [Samples.button_node; Samples.group_node]
     <> content_structure_hash [Samples.group_node; Samples.button_node]
  /\ (content_structure_hash [Samples.group_node; Samples.other_group_node]
      = content_structure_hash [Samples.other_group_node; Samples.group_node]
      /\ children_content_hash [Samples.group_node; Samples.other_group_node]
         = children_content_hash
             [Samples.other_group_node; Samples.group_node]).
Proof.
  destruct (reordering_children [] [] [] [] []
              Samples.button_node Samples.group_node)
    as (_ & _ & H3 & _ & H5).
  destruct (reordering_children [] [] [] [] []
              Samples.group_node Samples.other_group_node)
    as (_ & _ & _ & H4 & _).
  split; [exact H3|]. split.
  - destruct H5 as (_ & _ & _ & H).
    + vm_compute. discriminate.
    + vm_compute. reflexivity.
    + apply H. intros E. vm_compute in E. discriminate E.
  - apply H4. vm_compute. reflexivity.
Defined.

(* ------------------------------------------------------------------------- *)
(** ** Properties of every node of a constructed tree *)

Lemma every_node_unfold P o pvb n :
  every_node P o pvb n
  <-> P o pvb n
      /\ Forall (every_node P (node_origin o n) (visible_bbox n)) (children n)
      /\ match value n with
         | Some (PyUIElement v) => every_node P (node_origin o n) None v
         | _ => True
         end.
Proof.
  destruct n as [ro na en ap po si bb vb ce de rd va md ch id cid].
  cbn [every_node children value visible_bbox].
  set (o' := node_origin o _).
  assert (forall l,
             (fix every (l : list UIElement) : Prop :=
                match l with
                | [] => True
                | c :: l' => every_node P o' vb c /\ every l'
                end) l <-> Forall (every_node P o' vb) l) as Hl.
  { induction l as [|c l IH]; split; intros H; try constructor.
    - apply H.
    - apply IH, H.
    - now inversion H.
    - apply IH. now inversion H. }
  rewrite Hl. reflexivity.
Qed.

Lemma _get_children_map construct d vb e ox oy :
  _get_children construct d vb e ox oy
  = if expands d
    then map (fun c => construct c ox oy (child_depth d) vb) (found_children e)
    else [].
Proof. reflexivity. Qed.

Lemma node_origin_eq e ox oy d pvb :
  node_origin (ox, oy) (new_UIElement e ox oy d pvb) = origin e ox oy.
Proof.
  unfold node_origin, origin.
  destruct (kAXPositionAttribute e) as [p|] eqn:Hp;
    [destruct (kAXSizeAttribute e) as [s|] eqn:Hs|].
  - rewrite (new_UIElement_present e ox oy d pvb p s Hp Hs). reflexivity.
  - rewrite new_UIElement_absent by (now right).
    cbn [absolute_position role]. rewrite Hp. reflexivity.
  - rewrite new_UIElement_absent by (now left).
    cbn [absolute_position role]. rewrite Hp. reflexivity.
Qed.

Lemma children_present e ox oy d pvb p s :
  kAXPositionAttribute e = Some p ->
  kAXSizeAttribute e = Some s ->
  let node := new_UIElement e ox oy d pvb in
  let o := origin e ox oy in
  children node
  = _get_children new_UIElement d (visible_bbox node) e (fst o) (snd o)
  /\ value node = value_of new_UIElement e o.
Proof.
  intros Hp Hs. cbv zeta.
  rewrite (new_UIElement_present e ox oy d pvb p s Hp Hs). split; reflexivity.
Qed.

Lemma children_absent e ox oy d pvb :
  kAXPositionAttribute e = None \/ kAXSizeAttribute e = None ->
  let node := new_UIElement e ox oy d pvb in
  children node = [] /\ value node = None.
Proof.
  intros H. cbv zeta. rewrite new_UIElement_absent by assumption.
  split; reflexivity.
Qed.

(** The children of a constructor call, in all cases. *)
Lemma children_eq e ox oy d pvb :
  let node := new_UIElement e ox oy d pvb in
  let o := origin e ox oy in
  children node
  = match kAXPositionAttribute e, kAXSizeAttribute e with
    | Some _, Some _ =>
        if expands d
        then map (fun c => new_UIElement c (fst o) (snd o) (child_depth d)
                                         (visible_bbox node))
                 (found_children e)
        else []
    | _, _ => []
    end.
Proof.
  cbv zeta.
  destruct (kAXPositionAttribute e) as [p|] eqn:Hp;
    [destruct (kAXSizeAttribute e) as [s|] eqn:Hs|].
  - apply (children_present e ox oy d pvb p s Hp Hs).
  - apply children_absent. now right.
  - apply children_absent. now left.
Qed.

(** A property of single constructor calls holds of every node. *)
Lemma every_node_new_UIElement (P : Q * Q -> option BBox -> UIElement -> Prop) :
  (forall e ox oy d pvb, P (ox, oy) pvb (new_UIElement e ox oy d pvb)) ->
  forall e ox oy d pvb,
    every_node P (ox, oy) pvb (new_UIElement e ox oy d pvb).
Proof.
  intros HP e. induction e as [e IHc IHv] using AXUIElementRef_tree_ind.
  intros ox oy d pvb. apply every_node_unfold.
  split; [apply HP|]. rewrite node_origin_eq.
  destruct (kAXPositionAttribute e) as [p|] eqn:Hp;
    [destruct (kAXSizeAttribute e) as [s|] eqn:Hs|].
  - destruct (children_present e ox oy d pvb p s Hp Hs) as [-> ->].
    destruct (origin e ox oy) as [ox' oy']. cbn [fst snd]. split.
    + rewrite _get_children_map. destruct (expands d); [|constructor].
      apply Forall_map. revert IHc. apply Forall_impl. intros c Hc. apply Hc.
    + unfold value_of. cbn [fst snd].
      destruct (kAXValueAttribute e) as [[sc|items|v]|]; try exact I.
      apply IHv.
  - destruct (children_absent e ox oy d pvb) as [-> ->]; [now right|].
    split; [constructor | exact I].
  - destruct (children_absent e ox oy d pvb) as [-> ->]; [now left|].
    split; [constructor | exact I].
Qed.

(* ------------------------------------------------------------------------- *)
(** ** Relative positions *)

Lemma positions_eq e ox oy d pvb :
  let node := new_UIElement e ox oy d pvb in
  absolute_position node = kAXPositionAttribute e
  /\ position node
     = option_map (fun p => relative p (origin e ox oy)) (kAXPositionAttribute e)
  /\ size node = kAXSizeAttribute e.
Proof.
  cbv zeta.
  destruct (kAXPositionAttribute e) as [p|] eqn:Hp;
    [destruct (kAXSizeAttribute e) as [s|] eqn:Hs|].
  - rewrite (new_UIElement_present e ox oy d pvb p s Hp Hs).
    repeat split; reflexivity.
  - rewrite new_UIElement_absent by (now right).
    cbn [absolute_position position size]. rewrite Hp, Hs.
    repeat split; reflexivity.
  - rewrite new_UIElement_absent by (now left).
    cbn [absolute_position position size]. rewrite Hp.
    repeat split; reflexivity.
Qed.

(** C5. A node constructed from a platform element has the position the
    platform reports as its absolute position, and as its stored position
    that one minus [max(0, offset)] in both coordinates; the offset is the
    element's own position when the element is a window that has one, and
    the offset given to the constructor otherwise; and that same offset is
    what the constructor hands to the children and to the value node. So
    in every node of a constructed tree the offset is the absolute position
    of the nearest window on the path from the root to the node, the node
    included: the last two parts say this of every node of the tree, first
    in terms of the node's own fields ([every_node] hands [node_origin]
    down), then against the platform element the node is constructed
    from. *)
Theorem position_relative_to_window e ox oy d pvb :
  let node := new_UIElement e ox oy d pvb in
  let o := origin e ox oy in
  absolute_position node = kAXPositionAttribute e
  /\ position node
     = option_map
         (fun a => mkCGPoint (x a - pymax 0 (fst o)) (y a - pymax 0 (snd o)))
         (kAXPositionAttribute e)
  /\ (forall a, role_of e = "AXWindow" -> kAXPositionAttribute e = Some a ->
      o = (x a, y a))
  /\ (role_of e <> "AXWindow" \/ kAXPositionAttribute e = None ->
      o = (ox, oy))
  /\ children node
     = match kAXPositionAttribute e, kAXSizeAttribute e with
       | Some _, Some _ =>
           if expands d
           then map (fun c => new_UIElement c (fst o) (snd o) (child_depth d)
                                            (visible_bbox node))
                    (found_children e)
           else []
       | _, _ => []
       end
  /\ (forall v,
        kAXValueAttribute e = Some (AXUIElementValue v) ->
        kAXPositionAttribute e <> None -> kAXSizeAttribute e <> None ->
        value node
        = Some (PyUIElement (new_UIElement v (fst o) (snd o) None None)))
  /\ every_node position_is_relative (ox, oy) pvb node
  /\ every_node position_from_platform (ox, oy) pvb node.
Proof.
  cbv zeta.
  destruct (positions_eq e ox oy d pvb) as (Ha & Hp & _).
  split; [exact Ha|]. split; [exact Hp|]. split; [|split].
  - intros a Hr Hpa. unfold origin. rewrite Hpa, Hr. reflexivity.
  - intros H. unfold origin.
    destruct (kAXPositionAttribute e) as [a|]; [|reflexivity].
    destruct H as [H|H]; [|discriminate].
    destruct (String.eqb_spec (role_of e) "AXWindow"); [contradiction|].
    reflexivity.
  - split; [apply children_eq|]. split; [|split].
    + intros v Hv Hpn Hsn.
      destruct (kAXPositionAttribute e) as [p|] eqn:Ep; [|contradiction].
      destruct (kAXSizeAttribute e) as [s|] eqn:Es; [|contradiction].
      destruct (children_present e ox oy d pvb p s Ep Es) as [_ ->].
      unfold value_of. now rewrite Hv.
    + apply every_node_new_UIElement. clear.
      intros e ox oy d pvb q Hq. rewrite node_origin_eq.
      destruct (positions_eq e ox oy d pvb) as (Ha & Hp & _).
      rewrite Hp in Hq. rewrite Ha.
      destruct (kAXPositionAttribute e) as [a|]; [|discriminate].
      injection Hq as <-. exists a. repeat split.
    + apply every_node_new_UIElement. clear.
      intros e ox oy d pvb. exists e, d. cbn [fst snd].
      destruct (positions_eq e ox oy d pvb) as (Ha & Hp & _).
      split; [reflexivity|]. split; [exact Ha|]. split; [exact Hp|].
      apply node_origin_eq.
Qed.

Lemma position_relative_to_window_witness :
  children Samples.window_node = [Samples.button_node]
  /\ absolute_position Samples.button_node = Some (mkCGPoint 150 130)
  /\ position Samples.button_node
     = Some (mkCGPoint (150 - pymax 0 100) (130 - pymax 0 100)).
Proof.
  destruct (position_relative_to_window Samples.window 0 0 None None)
    as (_ & _ & _ & _ & Hc & _).
  destruct (position_relative_to_window Samples.button 100 100 None
              Samples.window_box) as (Ha & Hp & _).
  split; [|split].
  - unfold Samples.window_node, build. rewrite Hc. reflexivity.
  - exact Ha.
  - exact Hp.
Defined.

Example button_position :
  map position (children (build Samples.window None))
  = [Some (mkCGPoint 50 30)].
Proof. vm_compute. reflexivity. Qed.

(* ------------------------------------------------------------------------- *)
(** ** The center *)

(** C9 fails as stated: the button of the sample window is constructed with
    the window's offset (100,100); its center is (190,140), its absolute
    position plus half its size, and not (290,270). *)
Lemma center_is_not_absolute_plus_offset :
  children Samples.window_node = [Samples.button_node]
  /\ node_origin (0%Q, 0%Q) Samples.window_node = (100%Q, 100%Q)
  /\ absolute_position Samples.button_node = Some (mkCGPoint 150 130)
  /\ size Samples.button_node = Some (mkCGSize 80 20)
  /\ node_origin (100%Q, 100%Q) Samples.button_node = (100%Q, 100%Q)
  /\ exists cx cy,
       center Samples.button_node = Some (cx, cy)
       /\ (cx == 190)%Q /\ (cy == 140)%Q
       /\ ~ (cx == 150 + 100 + 80 / 2)%Q
       /\ ~ (cy == 130 + 100 + 20 / 2)%Q.
Proof.
  repeat (split; [vm_compute; reflexivity|]).
  eexists _, _. split; [vm_compute; reflexivity|].
  repeat split; vm_compute; discriminate.
Qed.

Lemma pymax_0_nonneg (q : Q) : (0 <= q)%Q -> (pymax 0 q == q)%Q.
Proof.
  intros H. unfold pymax. destruct (Qle_bool q 0) eqn:E; [|reflexivity].
  apply Qle_bool_imp_le in E. now apply Qle_antisym.
Qed.

(** C9, amended. In every node with a position and a size the center is the
    stored (relative) position plus the offset in effect plus half the
    size, that is, the absolute position minus [max(0, offset)] plus the
    offset plus half the size; when the offset is not negative this is the
    absolute position plus half the size. *)
Theorem center_of_every_node e ox oy d pvb :
  every_node center_from_position (ox, oy) pvb (new_UIElement e ox oy d pvb).
Proof.
  apply every_node_new_UIElement. clear.
  intros e ox oy d pvb a s Ha Hs. rewrite node_origin_eq.
  destruct (positions_eq e ox oy d pvb) as (Ha' & Hp' & Hs').
  rewrite Ha' in Ha. rewrite Hs' in Hs.
  rewrite (new_UIElement_present e ox oy d pvb a s Ha Hs).
  cbn [position center]. set (o := origin e ox oy).
  exists (relative a o). unfold relative. cbn [x y].
  repeat split; try reflexivity.
  - intros H. rewrite (pymax_0_nonneg _ H). ring.
  - intros H. rewrite (pymax_0_nonneg _ H). ring.
Qed.

(* ------------------------------------------------------------------------- *)
(** ** Visible bounding boxes *)

Lemma inside_contains (v p : BBox) :
  inside v p -> forall px py, contains v px py -> contains p px py.
Proof. unfold inside, contains. intros H px py Hv. lia. Qed.

Lemma _set_bboxes_clips position size pvb :
  let boxes := _set_bboxes position size pvb in
  match pvb with
  | None => snd boxes = fst boxes
  | Some p =>
      (forall v, snd boxes = Some v -> inside v p)
      /\ (forall b, fst boxes = Some b -> separated b p -> snd boxes = None)
      /\ (forall b, fst boxes = Some b -> ~ separated b p ->
          snd boxes = Some (intersection b p))
  end.
Proof.
  cbv zeta. unfold _set_bboxes.
  destruct position as [q|]; [destruct size as [s|]|].
  - destruct pvb as [p|]; [|reflexivity].
    set (b := mkBBox _ _ _ _).
    destruct ((bx0 b >? bx1 p) || (by0 b >? by1 p)
              || (bx1 b <? bx0 p) || (by1 b <? by0 p)) eqn:T;
      cbn [fst snd].
    + split; [discriminate|]. split; [reflexivity|].
      intros b' [= <-] Hn. exfalso. apply Hn. unfold separated.
      repeat (apply orb_prop in T; destruct T as [T|T]); lia.
    + apply orb_false_elim in T; destruct T as [T T4].
      apply orb_false_elim in T; destruct T as [T T3].
      apply orb_false_elim in T; destruct T as [T1 T2].
      split; [|split].
      * intros v [= <-]. unfold inside. cbn. lia.
      * intros b' [= <-] Hsep. exfalso. unfold separated in Hsep. lia.
      * intros b' [= <-] _. reflexivity.
  - destruct pvb; [|reflexivity]. repeat split; discriminate.
  - destruct pvb; [|reflexivity]. repeat split; discriminate.
Qed.

Lemma boxes_eq e ox oy d pvb :
  let node := new_UIElement e ox oy d pvb in
  (bbox node, visible_bbox node)
  = _set_bboxes (position node) (size node) pvb.
Proof.
  cbv zeta.
  destruct (kAXPositionAttribute e) as [p|] eqn:Hp;
    [destruct (kAXSizeAttribute e) as [s|] eqn:Hs|].
  - rewrite (new_UIElement_present e ox oy d pvb p s Hp Hs).
    cbn [bbox visible_bbox position size].
    now destruct (_set_bboxes _ _ pvb).
  - rewrite new_UIElement_absent by (now right).
    cbn [bbox visible_bbox position size]. rewrite Hs.
    unfold _set_bboxes. now destruct (option_map _ _).
  - rewrite new_UIElement_absent by (now left).
    cbn [bbox visible_bbox position size]. rewrite Hp. reflexivity.
Qed.

Example button_boxes :
  bbox Samples.button_node = Some (mkBBox 50 30 130 50)
  /\ visible_bbox Samples.button_node = Some (mkBBox 50 30 130 50).
Proof. vm_compute. split; reflexivity. Qed.

Example disjoint_child :
  _set_bboxes (Some (mkCGPoint 900 0)) (Some (mkCGSize 50 50))
              (Some (mkBBox 0 0 800 600))
  = (Some (mkBBox 900 0 950 50), None).
Proof. vm_compute. reflexivity. Qed.

(** C4 fails as stated: the child of the sample window starts on the
    window's right edge; the two boxes share no region, and the child's
    visible box is not absent but a box of width zero. *)
Lemma touching_child_gets_empty_box :
  children (build Samples.window_edge None) = [Samples.beside_node]
  /\ visible_bbox (build Samples.window_edge None)
     = Some (mkBBox 0 0 800 600)
  /\ bbox Samples.beside_node = Some (mkBBox 800 0 850 50)
  /\ ~ overlap (mkBBox 800 0 850 50) (mkBBox 0 0 800 600)
  /\ visible_bbox Samples.beside_node = Some (mkBBox 800 0 800 50)
  /\ area (mkBBox 800 0 800 50) = 0.
Proof.
  repeat (split; [vm_compute; reflexivity|]).
  split; [|split; vm_compute; reflexivity].
  unfold overlap. cbn. lia.
Qed.

(** C4, amended. For every node of a constructed tree: without a parent
    visible box the visible box is the node's own box; under a parent
    visible box, a visible box that is present lies inside the parent's, it
    is absent when the node's box lies strictly beyond one side of the
    parent's, and it is the coordinatewise intersection otherwise, which
    for boxes that only touch has width or height zero. *)
Theorem visible_bbox_clipped e ox oy d pvb :
  every_node clipped_by_parent (ox, oy) pvb (new_UIElement e ox oy d pvb).
Proof.
  apply every_node_new_UIElement. clear.
  intros e ox oy d pvb. unfold clipped_by_parent.
  pose proof (boxes_eq e ox oy d pvb) as HB. cbv zeta in HB.
  pose proof (_set_bboxes_clips
                (position (new_UIElement e ox oy d pvb))
                (size (new_UIElement e ox oy d pvb)) pvb) as HC.
  cbv zeta in HC. rewrite <- HB in HC. exact HC.
Qed.

(* ------------------------------------------------------------------------- *)
(** ** The depth limit *)

Lemma Forall2_map_same {A B : Type} (R : B -> B -> Prop) (f g : A -> B)
    (l : list A) :
  Forall (fun a => R (f a) (g a)) l -> Forall2 R (map f l) (map g l).
Proof. induction 1; simpl; constructor; assumption. Qed.

Lemma same_own_fields_depth e ox oy pvb d1 d2 :
  same_own_fields (new_UIElement e ox oy d1 pvb) (new_UIElement e ox oy d2 pvb).
Proof.
  unfold same_own_fields.
  destruct (kAXPositionAttribute e) as [p|] eqn:Hp;
    [destruct (kAXSizeAttribute e) as [s|] eqn:Hs|].
  - rewrite !(new_UIElement_present e ox oy _ pvb p s Hp Hs).
    repeat split; reflexivity.
  - rewrite !new_UIElement_absent by (now right). repeat split; reflexivity.
  - rewrite !new_UIElement_absent by (now left). repeat split; reflexivity.
Qed.

Lemma visible_bbox_depth e ox oy pvb d1 d2 :
  visible_bbox (new_UIElement e ox oy d1 pvb)
  = visible_bbox (new_UIElement e ox oy d2 pvb).
Proof. apply (same_own_fields_depth e ox oy pvb d1 d2). Qed.

Lemma cut_at_new_UIElement e :
  forall n ox oy pvb,
    cut_at n (new_UIElement e ox oy (Some (Z.of_nat n)) pvb)
             (new_UIElement e ox oy None pvb).
Proof.
  induction e as [e IHc _] using AXUIElementRef_tree_ind.
  intros n ox oy pvb. destruct n as [|n].
  - split; [apply same_own_fields_depth|].
    rewrite children_eq. cbn [Z.of_nat expands Z.gtb Z.compare].
    now destruct (kAXPositionAttribute e), (kAXSizeAttribute e).
  - split; [apply same_own_fields_depth|].
    rewrite !children_eq.
    rewrite (visible_bbox_depth e ox oy pvb (Some (Z.of_nat (S n))) None).
    destruct (kAXPositionAttribute e) as [p|]; [|constructor].
    destruct (kAXSizeAttribute e) as [s|]; [|constructor].
    replace (expands (Some (Z.of_nat (S n)))) with true
      by (symmetry; apply Z.gtb_lt; lia).
    cbn [expands child_depth option_map].
    replace (Z.of_nat (S n) - 1) with (Z.of_nat n) by lia.
    apply Forall2_map_same. revert IHc. apply Forall_impl.
    intros c Hc. apply Hc.
Qed.

Lemma max_depth_eq e ox oy d pvb :
  max_depth (new_UIElement e ox oy d pvb) = d.
Proof.
  destruct (kAXPositionAttribute e) as [p|] eqn:Hp;
    [destruct (kAXSizeAttribute e) as [s|] eqn:Hs|].
  - now rewrite (new_UIElement_present e ox oy d pvb p s Hp Hs).
  - now rewrite new_UIElement_absent by (now right).
  - now rewrite new_UIElement_absent by (now left).
Qed.

(** A child of a constructed node is a constructor call with the depth
    handed down. *)
Lemma child_is_call e ox oy d pvb c :
  In c (children (new_UIElement e ox oy d pvb)) ->
  exists ec ox' oy' vb, c = new_UIElement ec ox' oy' (child_depth d) vb.
Proof.
  rewrite children_eq. intros H.
  destruct (kAXPositionAttribute e); [|contradiction].
  destruct (kAXSizeAttribute e); [|contradiction].
  destruct (expands d); [|contradiction].
  apply in_map_iff in H. destruct H as (ec & <- & _). eauto.
Qed.

Lemma no_children_at_zero e ox oy pvb :
  children (new_UIElement e ox oy (Some 0) pvb) = [].
Proof. apply (proj2 (cut_at_new_UIElement e 0%nat ox oy pvb)). Qed.

(** C6. With [max_depth = 0] the node has no children and its own
    attributes are those of the unlimited construction; for an element with
    a position and a size, the description, the role description and the
    value are the ones read from the platform. With [max_depth = n] the
    tree is the unlimited tree cut below depth [n]: for [n = 2] the
    grandchildren are there with their own attributes and without children.
    Each child is constructed with the limit minus one, and without a limit
    every found child is constructed, again without a limit. *)
Theorem depth_limit e ox oy pvb :
  let limited d := new_UIElement e ox oy (Some d) pvb in
  let full := new_UIElement e ox oy None pvb in
  children (limited 0) = []
  /\ same_own_fields (limited 0) full
  /\ (forall n, cut_at n (limited (Z.of_nat n)) full)
  /\ (forall c g, In c (children (limited 2)) -> In g (children c) ->
      children g = [])
  /\ (forall d c, In c (children (limited d)) -> max_depth c = Some (d - 1))
  /\ (forall c, In c (children full) -> max_depth c = None)
  /\ (forall p s,
        kAXPositionAttribute e = Some p ->
        kAXSizeAttribute e = Some s ->
        description (limited 0) = kAXDescriptionAttribute e
        /\ role_description (limited 0) = kAXRoleDescriptionAttribute e
        /\ value (limited 0) = value_of new_UIElement e (origin e ox oy)
        /\ List.length (children full) = List.length (found_children e)).
Proof.
  cbv zeta. split; [|split; [|split; [|split; [|split; [|split]]]]].
  - apply no_children_at_zero.
  - apply same_own_fields_depth.
  - intros n. apply cut_at_new_UIElement.
  - intros c g Hc Hg.
    apply child_is_call in Hc. destruct Hc as (ec & ox1 & oy1 & vb1 & ->).
    apply child_is_call in Hg. destruct Hg as (eg & ox2 & oy2 & vb2 & ->).
    apply no_children_at_zero.
  - intros d c Hc.
    apply child_is_call in Hc. destruct Hc as (ec & ox1 & oy1 & vb1 & ->).
    apply max_depth_eq.
  - intros c Hc.
    apply child_is_call in Hc. destruct Hc as (ec & ox1 & oy1 & vb1 & ->).
    apply max_depth_eq.
  - intros p s Hp Hs.
    rewrite children_eq, Hp, Hs. cbn [expands].
    rewrite (new_UIElement_present e ox oy (Some 0) pvb p s Hp Hs).
    repeat split. apply length_map.
Qed.

Lemma depth_limit_witness :
  List.length (children (Samples.window4_limited 2)) = 1%nat
  /\ List.length (flat_map children (children (Samples.window4_limited 2)))
     = 1%nat
  /\ flat_map children
       (flat_map children (children (Samples.window4_limited 2))) = []
  /\ description (Samples.window4_limited 0) = Some "a description"
  /\ List.length (children Samples.window4_full) = 1%nat.
Proof.
  destruct (depth_limit Samples.window4 0 0 None)
    as (_ & _ & _ & H2 & _ & _ & Hg).
  destruct (Hg (mkCGPoint 100 100) (mkCGSize 800 600) eq_refl eq_refl)
    as (Hd & _ & _ & Hl).
  split; [vm_compute; reflexivity|].
  split; [vm_compute; reflexivity|].
  split; [|split; [exact Hd | exact Hl]].
  assert (forall l : list UIElement,
             (forall g, In g l -> children g = []) ->
             flat_map children l = []) as Hall.
  { induction l as [|g l IH]; intros H; [reflexivity|]. cbn [flat_map].
    rewrite (H g (or_introl eq_refl)). apply IH.
    intros g' Hg'. apply H. now right. }
  apply Hall. intros g Hin. apply in_flat_map in Hin.
  destruct Hin as (c & Hc & Hgc). exact (H2 c g Hc Hgc).
Defined.

Example grandchild_without_children :
  map role (flat_map children (children (Samples.window4_limited 2)))
  = ["AXGroup"]
  /\ map role
       (flat_map children (flat_map children (children Samples.window4_full)))
     = ["AXButton"].
Proof. vm_compute. split; reflexivity. Qed.

(* ------------------------------------------------------------------------- *)
(** ** Elements without a position or a size *)

(** C7 (the code departs from the claim). The sample window holds an
    element without a position that has a description, a role description,
    a value and a child. The constructed node is in the window's children
    and its geometry attributes are absent, as claimed; but the constructor
    returns right after [_set_bboxes], so the description and the role
    description stay empty, the value stays [None], no child is
    constructed and both identifiers stay empty. *)
Theorem missing_geometry_returns_early :
  children (build Samples.window_unplaced None) = [Samples.unplaced_node]
  /\ (position Samples.unplaced_node = None
      /\ bbox Samples.unplaced_node = None
      /\ visible_bbox Samples.unplaced_node = None
      /\ center Samples.unplaced_node = None)
  /\ (kAXDescriptionAttribute Samples.unplaced = Some "a description"
      /\ description Samples.unplaced_node = Some "")
  /\ (kAXRoleDescriptionAttribute Samples.unplaced
      = Some "a role description"
      /\ role_description Samples.unplaced_node = Some "")
  /\ (kAXValueAttribute Samples.unplaced
      = Some (CFScalarValue (CFString "text"))
      /\ value Samples.unplaced_node = None)
  /\ (found_children Samples.unplaced = [Samples.button]
      /\ children Samples.unplaced_node = [])
  /\ identifier Samples.unplaced_node = ""
  /\ content_identifier Samples.unplaced_node = "".
Proof. vm_compute. repeat split. Qed.

(* ------------------------------------------------------------------------- *)
(** ** A value that is an element *)

(** C8 fails as stated: constructed with [max_depth = 0] the sample field
    has no children, but the node stored as its value has its child. *)
Lemma value_node_is_expanded :
  max_depth Samples.field_node = Some 0
  /\ children Samples.field_node = []
  /\ value Samples.field_node = Some (PyUIElement Samples.menu_node)
  /\ max_depth Samples.menu_node = None
  /\ map role (children Samples.menu_node) = ["AXButton"].
Proof. vm_compute. repeat split. Qed.

Lemma every_node_unlimited e :
  forall ox oy pvb,
    every_node unlimited (ox, oy) pvb (new_UIElement e ox oy None pvb).
Proof.
  induction e as [e IHc IHv] using AXUIElementRef_tree_ind.
  intros ox oy pvb. apply every_node_unfold.
  split; [apply max_depth_eq|]. rewrite node_origin_eq.
  destruct (kAXPositionAttribute e) as [p|] eqn:Hp;
    [destruct (kAXSizeAttribute e) as [s|] eqn:Hs|].
  - destruct (children_present e ox oy None pvb p s Hp Hs) as [-> ->].
    destruct (origin e ox oy) as [ox' oy']. cbn [fst snd]. split.
    + rewrite _get_children_map. cbn [expands child_depth option_map].
      apply Forall_map. revert IHc. apply Forall_impl. intros c Hc. apply Hc.
    + unfold value_of. cbn [fst snd].
      destruct (kAXValueAttribute e) as [[sc|items|v]|]; try exact I.
      apply IHv.
  - destruct (children_absent e ox oy None pvb) as [-> ->]; [now right|].
    split; [constructor | exact I].
  - destruct (children_absent e ox oy None pvb) as [-> ->]; [now left|].
    split; [constructor | exact I].
Qed.

(** C8, amended. When a node with a position and a size has a value that is
    an accessibility element, the stored value is the node constructed from
    that element with the offsets in effect, no parent visible box and no
    depth limit, whatever the depth limit [d] of the node itself, and no
    node of the value node's tree has a depth limit. When the value
    element has a position and a size, its found children are all
    constructed, again without a limit; when it lacks one of them, the
    constructor returns early and the value node has no children. *)
Theorem value_node_unlimited e ox oy d pvb (p : CGPoint) (s : CGSize)
    (v : AXUIElementRef) :
  kAXPositionAttribute e = Some p ->
  kAXSizeAttribute e = Some s ->
  kAXValueAttribute e = Some (AXUIElementValue v) ->
  let o := origin e ox oy in
  let vn := new_UIElement v (fst o) (snd o) None None in
  let ov := origin v (fst o) (snd o) in
  value (new_UIElement e ox oy d pvb) = Some (PyUIElement vn)
  /\ max_depth vn = None
  /\ every_node unlimited (fst o, snd o) None vn
  /\ (kAXPositionAttribute v <> None -> kAXSizeAttribute v <> None ->
      children vn
      = map (fun c =>
               new_UIElement c (fst ov) (snd ov) None (visible_bbox vn))
            (found_children v))
  /\ (kAXPositionAttribute v = None \/ kAXSizeAttribute v = None ->
      children vn = []).
Proof.
  intros Hp Hs Hv o vn ov. subst o vn ov.
  split; [|split; [|split; [|split]]].
  - destruct (children_present e ox oy d pvb p s Hp Hs) as [_ ->].
    unfold value_of. rewrite Hv. reflexivity.
  - apply max_depth_eq.
  - apply every_node_unlimited.
  - intros Hpv Hsv. rewrite children_eq.
    destruct (kAXPositionAttribute v); [|contradiction].
    destruct (kAXSizeAttribute v); [|contradiction].
    reflexivity.
  - intros H. now apply children_absent.
Qed.

Lemma value_node_unlimited_witness :
  (value Samples.field_node = Some (PyUIElement Samples.menu_node)
   /\ children Samples.menu_node
      = [new_UIElement Samples.button 0 0 None
           (visible_bbox Samples.menu_node)])
  /\ (value (build Samples.field_unplaced (Some 0))
      = Some (PyUIElement (new_UIElement Samples.unplaced 0 0 None None))
      /\ found_children Samples.unplaced = [Samples.button]
      /\ children (new_UIElement Samples.unplaced 0 0 None None) = []).
Proof.
  destruct (value_node_unlimited Samples.field 0 0 (Some 0) None
              (mkCGPoint 10 10) (mkCGSize 100 20) Samples.menu
              eq_refl eq_refl eq_refl) as (H1 & _ & _ & H3 & _).
  destruct (value_node_unlimited Samples.field_unplaced 0 0 (Some 0) None
              (mkCGPoint 10 10) (mkCGSize 100 20) Samples.unplaced
              eq_refl eq_refl eq_refl) as (H1' & _ & _ & _ & H4').
  split; [split; [exact H1 | apply H3; discriminate]|].
  split; [exact H1'|]. split; [reflexivity|]. apply H4'. now left.
Defined.

(* ------------------------------------------------------------------------- *)
(** ** How many children are read *)

Lemma found_children_limited e l :
  kAXChildrenAttribute e = Some l -> ranged_read_fails e = false ->
  found_children e = firstn 999 l.
Proof.
  intros H Hr. unfold found_children, element_attribute_children,
    AXUIElementCopyAttributeValues. rewrite H, Hr. reflexivity.
Qed.

Lemma found_children_unranged e l :
  kAXChildrenAttribute e = Some l -> ranged_read_fails e = true ->
  found_children e = l.
Proof.
  intros H Hr. unfold found_children, element_attribute_children,
    AXUIElementCopyAttributeValues, AXUIElementCopyAttributeValue_children.
  rewrite Hr, H. reflexivity.
Qed.

Lemma found_children_visible e l :
  kAXChildrenAttribute e = None -> kAXVisibleChildrenAttribute e = Some l ->
  found_children e = l.
Proof.
  intros H Hv. unfold found_children, element_attribute_children,
    AXUIElementCopyAttributeValues, AXUIElementCopyAttributeValue_children.
  rewrite H, Hv. now destruct (ranged_read_fails e).
Qed.

(** With position, size and depth permitting, every found child is
    constructed. *)
Lemma found_children_built e ox oy d pvb :
  kAXPositionAttribute e <> None -> kAXSizeAttribute e <> None ->
  expands d = true ->
  let node := new_UIElement e ox oy d pvb in
  let o := origin e ox oy in
  children node
  = map (fun c => new_UIElement c (fst o) (snd o) (child_depth d)
                                (visible_bbox node))
        (found_children e).
Proof.
  intros Hp Hs Hd. cbv zeta. rewrite children_eq.
  destruct (kAXPositionAttribute e); [|contradiction].
  destruct (kAXSizeAttribute e); [|contradiction].
  now rewrite Hd.
Qed.

(** The constructor reads the two children attributes through
    [found_children] only. *)
Lemma new_UIElement_found_children e ch ox oy d pvb :
  found_children (with_children e ch) = found_children e ->
  new_UIElement (with_children e ch) ox oy d pvb = new_UIElement e ox oy d pvb.
Proof.
  intros Hf. rewrite !new_UIElement_eq. unfold UIElement_call.
  destruct e as [ro ti en po si de rd va ch0 vi rf].
  unfold with_children in *.
  cbn [kAXRoleAttribute kAXTitleAttribute kAXEnabledAttribute
       kAXPositionAttribute kAXSizeAttribute kAXDescriptionAttribute
       kAXRoleDescriptionAttribute kAXValueAttribute
       kAXVisibleChildrenAttribute ranged_read_fails] in *.
  unfold __init__, _get_children. rewrite Hf. reflexivity.
Qed.

(** C10 fails as stated: the sample list reports no children attribute and
    a thousand visible children; all thousand are constructed. *)
Lemma visible_children_are_not_limited :
  kAXChildrenAttribute Samples.crowded = None
  /\ List.length (children Samples.crowded_node) = 1000%nat
  /\ ~ (List.length (children Samples.crowded_node) <= 999)%nat.
Proof.
  split; [reflexivity|].
  assert (List.length (children Samples.crowded_node) = 1000%nat) as H.
  { unfold Samples.crowded_node, build. rewrite children_eq.
    change (kAXPositionAttribute Samples.crowded) with (Samples.at_ 0 0).
    change (kAXSizeAttribute Samples.crowded) with (Samples.sized 100 1000).
    cbn [Samples.at_ Samples.sized expands]. rewrite length_map.
    reflexivity. }
  split; [exact H | rewrite H; lia].
Qed.

(** C10, amended. The children of a node come from one of three reads.
    When the ranged read of the children attribute succeeds, only the first
    999 entries are read: the node has at most 999 children, and it is the
    node that is constructed when the platform reports those 999 entries
    alone, so that later children have no part in the tree, in the two
    identifiers or in anything computed from the node. When the ranged read
    returns an error, [element_attribute] goes on to the plain read, which
    gives all the children; and when the children attribute is absent the
    visible children are used, read without a range. On these two paths
    every reported child is constructed, position, size and depth
    permitting, however many there are. *)
Theorem children_read_limited e ox oy d pvb :
  let node := new_UIElement e ox oy d pvb in
  let o := origin e ox oy in
  let construct c :=
    new_UIElement c (fst o) (snd o) (child_depth d) (visible_bbox node) in
  let built :=
    kAXPositionAttribute e <> None /\ kAXSizeAttribute e <> None
    /\ expands d = true in
  (forall l,
     kAXChildrenAttribute e = Some l -> ranged_read_fails e = false ->
     AXUIElementCopyAttributeValues e 0 999 = Some (firstn 999 l)
     /\ found_children e = firstn 999 l
     /\ (List.length (children node) <= 999)%nat
     /\ node
        = new_UIElement (with_children e (Some (firstn 999 l))) ox oy d pvb)
  /\ (forall l,
        kAXChildrenAttribute e = Some l -> ranged_read_fails e = true ->
        AXUIElementCopyAttributeValues e 0 999 = None
        /\ found_children e = l
        /\ (built ->
            children node = map construct l
            /\ List.length (children node) = List.length l))
  /\ (forall l,
        kAXChildrenAttribute e = None ->
        kAXVisibleChildrenAttribute e = Some l ->
        found_children e = l
        /\ (built ->
            children node = map construct l
            /\ List.length (children node) = List.length l)).
Proof.
  cbv zeta. split; [|split].
  - intros l Hl Hr.
    pose proof (found_children_limited e l Hl Hr) as Hf.
    split; [unfold AXUIElementCopyAttributeValues; now rewrite Hr, Hl|].
    split; [exact Hf|]. split.
    + rewrite children_eq, Hf.
      destruct (kAXPositionAttribute e); [|cbn; lia].
      destruct (kAXSizeAttribute e); [|cbn; lia].
      destruct (expands d); [|cbn; lia].
      rewrite length_map. apply firstn_le_length.
    + symmetry. apply new_UIElement_found_children.
      rewrite Hf.
      rewrite (found_children_limited
                 (with_children e (Some (firstn 999 l))) (firstn 999 l)
                 eq_refl Hr).
      apply firstn_firstn.
  - intros l Hl Hr.
    pose proof (found_children_unranged e l Hl Hr) as Hf.
    split; [unfold AXUIElementCopyAttributeValues; now rewrite Hr|].
    split; [exact Hf|]. intros (Hp & Hs & Hd).
    rewrite (found_children_built e ox oy d pvb Hp Hs Hd), Hf.
    split; [reflexivity | apply length_map].
  - intros l Hl Hv.
    pose proof (found_children_visible e l Hl Hv) as Hf.
    split; [exact Hf|]. intros (Hp & Hs & Hd).
    rewrite (found_children_built e ox oy d pvb Hp Hs Hd), Hf.
    split; [reflexivity | apply length_map].
Qed.

Lemma children_read_limited_witness :
  ((List.length (children Samples.long_list_node) <= 999)%nat
   /\ Samples.long_list_node
      = build (with_children Samples.long_list
                 (Some (firstn 999 (repeat Samples.button 1000))))
              None)
  /\ List.length (children Samples.unranged_node)
     = List.length (repeat Samples.button 1000)
  /\ List.length (children Samples.crowded_node)
     = List.length (repeat Samples.button 1000).
Proof.
  split; [|split].
  - destruct (children_read_limited Samples.long_list 0 0 None None)
      as (H & _ & _).
    destruct (H (repeat Samples.button 1000) eq_refl eq_refl)
      as (_ & _ & H2 & H3).
    split; [exact H2 | exact H3].
  - destruct (children_read_limited Samples.unranged 0 0 None None)
      as (_ & H & _).
    destruct (H (repeat Samples.button 1000) eq_refl eq_refl) as (_ & _ & H3).
    apply H3. repeat split; discriminate.
  - destruct (children_read_limited Samples.crowded 0 0 None None)
      as (_ & _ & H).
    destruct (H (repeat Samples.button 1000) eq_refl eq_refl) as (_ & H3).
    apply H3. repeat split; discriminate.
Defined.

Example long_list_children :
  option_map (@List.length _) (kAXChildrenAttribute Samples.long_list)
  = Some 1000%nat
  /\ List.length (found_children Samples.long_list) = 999%nat.
Proof. split; reflexivity. Qed.


(* ========================================================================= *)
(** * Part III: the serializer, the handler and further properties *)

(* ------------------------------------------------------------------------- *)
(** ** Induction on constructed trees *)

Section NodeInduction.
Variable P : UIElement -> Prop.
Hypothesis node :
  forall n,
    Forall P (children n) ->
    match value n with
    | Some (PyUIElement v) => P v
    | _ => True
    end ->
    P n.

Lemma UIElement_tree_ind : forall n, P n.
Proof.
  fix IH 1. intros [ro na en ap po si bb vb ce de rd va md ch id cid].
  apply node; cbn [children value].
  - revert ch. fix IHl 1. intros [|c l]; constructor; [apply IH | apply IHl].
  - destruct va as [[s|items|v]|]; try exact I. apply IH.
Qed.
End NodeInduction.

(* ------------------------------------------------------------------------- *)
(** ** [to_dict] *)

Lemma flat_map_map {A B C : Type} (f : A -> B) (g : B -> list C) (l : list A) :
  flat_map g (map f l) = flat_map (fun a => g (f a)) l.
Proof. induction l as [|a l IH]; simpl; [reflexivity | now rewrite IH]. Qed.

Lemma flat_map_ext_Forall {A B : Type} (f g : A -> list B) (l : list A) :
  Forall (fun a => f a = g a) l -> flat_map f l = flat_map g l.
Proof. induction 1 as [|a l Ha _ IH]; simpl; [reflexivity | now rewrite Ha, IH]. Qed.

Lemma map_of_flat_map {A B C : Type} (f : B -> C) (g : A -> list B)
    (l : list A) :
  map f (flat_map g l) = flat_map (fun a => map f (g a)) l.
Proof.
  induction l as [|a l IH]; simpl; [reflexivity|]. now rewrite map_app, IH.
Qed.

Lemma to_dict_children (n : UIElement) :
  dict_children (to_dict n) = map to_dict (children n).
Proof. destruct n; reflexivity. Qed.

Lemma nodes_eq (n : UIElement) : nodes n = n :: flat_map nodes (children n).
Proof. destruct n; reflexivity. Qed.

Lemma entries_eq (d : Dict) : entries d = d :: flat_map entries (dict_children d).
Proof. destruct d; reflexivity. Qed.

(** The dictionary has one entry per node of the tree, in the same order:
    no node is left out or added, and the ["id"]s are the identifiers. *)
Theorem to_dict_keeps_every_node (n : UIElement) :
  entries (to_dict n) = map to_dict (nodes n)
  /\ List.length (entries (to_dict n)) = List.length (nodes n)
  /\ map dict_id (entries (to_dict n)) = map identifier (nodes n).
Proof.
  assert (H : entries (to_dict n) = map to_dict (nodes n)).
  { induction n as [n IHc _] using UIElement_tree_ind.
    rewrite entries_eq, nodes_eq, to_dict_children. cbn [map]. f_equal.
    rewrite flat_map_map, map_of_flat_map. now apply flat_map_ext_Forall. }
  split; [exact H|]. rewrite H. split.
  - apply length_map.
  - rewrite map_map. apply map_ext. now intros [].
Qed.

Lemma to_dict_fields (n : UIElement) :
  dict_position (to_dict n)
  = match position n with
    | Some p => format_2f (x p) ++ ";" ++ format_2f (y p)
    | None => ""
    end
  /\ dict_absolute_position (to_dict n)
     = match absolute_position n with
       | Some p => format_2f (x p) ++ ";" ++ format_2f (y p)
       | None => ""
       end
  /\ dict_size (to_dict n)
     = match size n with
       | Some s => format_0f (width s) ++ ";" ++ format_0f (height s)
       | None => ""
       end
  /\ dict_bbox (to_dict n) = bbox n
  /\ dict_visible_bbox (to_dict n) = visible_bbox n
  /\ dict_id (to_dict n) = identifier n.
Proof. destruct n; repeat split; reflexivity. Qed.

Lemma joined_pair_nonempty (a b : string) : (a ++ ";" ++ b)%string <> "".
Proof. destruct a; discriminate. Qed.

Lemma bbox_present e ox oy d pvb :
  bbox (new_UIElement e ox oy d pvb) = None
  <-> kAXPositionAttribute e = None \/ kAXSizeAttribute e = None.
Proof.
  destruct (kAXPositionAttribute e) as [p|] eqn:Hp;
    [destruct (kAXSizeAttribute e) as [s|] eqn:Hs|].
  - rewrite (new_UIElement_present e ox oy d pvb p s Hp Hs).
    cbn [bbox]. unfold _set_bboxes. destruct pvb as [pv|].
    + destruct (_ || _); cbn [fst];
        (split; [discriminate | now intros [|]]).
    + cbn [fst]. split; [discriminate | now intros [|]].
  - rewrite new_UIElement_absent by (now right). cbn [bbox].
    split; [now right | reflexivity].
  - rewrite new_UIElement_absent by (now left). cbn [bbox].
    split; [now left | reflexivity].
Qed.

(** In the dictionary of a constructed node the three geometry strings are
    empty exactly when the platform reports no position, respectively no
    size; ["bbox"] is [None] exactly when one of ["position"] and ["size"]
    is empty; and an entry that has children has a bounding box. *)
Theorem serialized_geometry e ox oy d pvb :
  let entry := to_dict (new_UIElement e ox oy d pvb) in
  (dict_position entry = "" <-> kAXPositionAttribute e = None)
  /\ (dict_absolute_position entry = "" <-> kAXPositionAttribute e = None)
  /\ (dict_size entry = "" <-> kAXSizeAttribute e = None)
  /\ (dict_bbox entry = None
      <-> dict_position entry = "" \/ dict_size entry = "")
  /\ (dict_children entry <> [] -> dict_bbox entry <> None).
Proof.
  cbv zeta.
  destruct (to_dict_fields (new_UIElement e ox oy d pvb))
    as (Hpos & Habs & Hsize & Hbox & _).
  destruct (positions_eq e ox oy d pvb) as (Ha & Hp & Hs).
  rewrite Hp in Hpos. rewrite Ha in Habs. rewrite Hs in Hsize.
  assert (Hposition : dict_position (to_dict (new_UIElement e ox oy d pvb)) = ""
                      <-> kAXPositionAttribute e = None).
  { rewrite Hpos. destruct (kAXPositionAttribute e); cbn [option_map].
    - split; [intros H; now apply joined_pair_nonempty in H | discriminate].
    - split; reflexivity. }
  assert (Hsz : dict_size (to_dict (new_UIElement e ox oy d pvb)) = ""
                <-> kAXSizeAttribute e = None).
  { rewrite Hsize. destruct (kAXSizeAttribute e).
    - split; [intros H; now apply joined_pair_nonempty in H | discriminate].
    - split; reflexivity. }
  split; [exact Hposition|]. split.
  { rewrite Habs. destruct (kAXPositionAttribute e).
    - split; [intros H; now apply joined_pair_nonempty in H | discriminate].
    - split; reflexivity. }
  split; [exact Hsz|]. split.
  - rewrite Hbox, Hposition, Hsz. apply bbox_present.
  - rewrite Hbox, to_dict_children, bbox_present. intros Hc Habsent.
    apply Hc. rewrite (proj1 (children_absent e ox oy d pvb Habsent)).
    reflexivity.
Qed.

(* ------------------------------------------------------------------------- *)
(** ** Windows and their identifiers *)

Lemma round_half_even_zero (q : Q) : Qnum q = 0 -> round_half_even q = 0.
Proof.
  intros H. unfold round_half_even. rewrite H. cbn. reflexivity.
Qed.

Lemma format_0f_zero (q : Q) : Qnum q = 0 -> format_0f q = "0".
Proof.
  intros H. unfold format_0f. rewrite round_half_even_zero by assumption.
  rewrite H. reflexivity.
Qed.

Lemma format_2f_zero (q : Q) : Qnum q = 0 -> format_2f q = "0.00".
Proof.
  intros H. unfold format_2f.
  rewrite round_half_even_zero by (cbn; rewrite H; reflexivity).
  rewrite H. reflexivity.
Qed.

(** [q - max(0, q)] is zero for [q >= 0] and [q] for [q <= 0]. *)
Lemma clamp_nonnegative (q : Q) : (0 <= q)%Q -> Qnum (q - pymax 0 q) = 0.
Proof.
  intros H. unfold pymax. destruct (Qle_bool q 0) eqn:E.
  - apply Qle_bool_imp_le in E. unfold Qle in *. cbn in *. lia.
  - cbn. ring.
Qed.

Lemma clamp_nonpositive (q : Q) : (q <= 0)%Q -> (q - pymax 0 q == q)%Q.
Proof.
  intros H. unfold pymax.
  rewrite (proj2 (Qle_bool_iff q 0) H). ring.
Qed.

Lemma origin_of_window e ox oy p :
  kAXRoleAttribute e = Some "AXWindow" ->
  kAXPositionAttribute e = Some p ->
  origin e ox oy = (x p, y p).
Proof.
  intros Hr Hp. unfold origin, role_of. rewrite Hr, Hp. reflexivity.
Qed.

(** A window with a position is its own origin: at non-negative screen
    coordinates its stored position is zero and is serialized as
    ["0.00;0.00"], whatever offsets the constructor was given; a negative
    coordinate is kept as it is, because the offset is clamped to
    [max(0, offset)]. *)
Theorem window_position e ox oy d pvb (p : CGPoint) :
  kAXRoleAttribute e = Some "AXWindow" ->
  kAXPositionAttribute e = Some p ->
  let node := new_UIElement e ox oy d pvb in
  exists q,
    position node = Some q
    /\ absolute_position node = Some p
    /\ ((0 <= x p)%Q -> (x q == 0)%Q)
    /\ ((0 <= y p)%Q -> (y q == 0)%Q)
    /\ ((x p <= 0)%Q -> (x q == x p)%Q)
    /\ ((y p <= 0)%Q -> (y q == y p)%Q)
    /\ ((0 <= x p)%Q -> (0 <= y p)%Q ->
        dict_position (to_dict node) = "0.00;0.00").
Proof.
  intros Hr Hp node. subst node.
  destruct (positions_eq e ox oy d pvb) as (Ha & Hq & _).
  rewrite Hp in Ha, Hq. cbn [option_map] in Hq.
  rewrite (origin_of_window e ox oy p Hr Hp) in Hq.
  exists (relative p (x p, y p)). unfold relative in *. cbn [fst snd x y] in *.
  split; [exact Hq|]. split; [exact Ha|].
  assert (Hz : forall q : Q, (0 <= q)%Q -> (q - pymax 0 q == 0)%Q).
  { intros q H. unfold Qeq. rewrite (clamp_nonnegative q H). reflexivity. }
  split; [intros H; now apply Hz|]. split; [intros H; now apply Hz|].
  split; [intros H; now apply clamp_nonpositive|].
  split; [intros H; now apply clamp_nonpositive|].
  intros Hx Hy.
  rewrite (proj1 (to_dict_fields _)), Hq. cbn [x y].
  rewrite !format_2f_zero by (now apply clamp_nonnegative). reflexivity.
Qed.

Lemma window_position_witness :
  position Samples.window_node = Some (mkCGPoint (100 - 100) (100 - 100))
  /\ dict_position (to_dict Samples.window_node) = "0.00;0.00".
Proof.
  destruct (window_position Samples.window 0 0 None None (mkCGPoint 100 100)
              eq_refl eq_refl) as (q & Hq & _ & _ & _ & _ & _ & Hd).
  split.
  - vm_compute. reflexivity.
  - apply Hd; discriminate.
Defined.

(** The identifier of a window at non-negative screen coordinates does not
    depend on where the window is: it is the digest of ["0;0"], the size,
    the enabled flag and the role. *)
Theorem window_identifier e ox oy d pvb (p : CGPoint) (s : CGSize) :
  kAXRoleAttribute e = Some "AXWindow" ->
  kAXPositionAttribute e = Some p ->
  kAXSizeAttribute e = Some s ->
  (0 <= x p)%Q -> (0 <= y p)%Q ->
  identifier (new_UIElement e ox oy d pvb)
  = MD5.hexdigest
      ("0;0" ++ format_0f (width s) ++ ";" ++ format_0f (height s)
       ++ str_bool (enabled_of e) ++ "AXWindow").
Proof.
  intros Hr Hp Hs Hx Hy.
  rewrite (new_UIElement_present e ox oy d pvb p s Hp Hs). cbn [identifier].
  rewrite (origin_of_window e ox oy p Hr Hp).
  unfold component_hash, relative, role_of. cbn [fst snd x y]. rewrite Hr.
  rewrite !format_0f_zero by (now apply clamp_nonnegative).
  rewrite !append_assoc. reflexivity.
Qed.

Lemma window_identifier_witness :
  identifier Samples.window_node
  = MD5.hexdigest "0;0800;600TrueAXWindow"
  /\ identifier (new_UIElement Samples.window_edge 7 9 (Some 1) None)
     = MD5.hexdigest "0;0800;600TrueAXWindow".
Proof.
  split.
  - apply (window_identifier Samples.window 0 0 None None
             (mkCGPoint 100 100) (mkCGSize 800 600));
      try reflexivity; discriminate.
  - apply (window_identifier Samples.window_edge 7 9 (Some 1) None
             (mkCGPoint 0 0) (mkCGSize 800 600));
      try reflexivity; discriminate.
Defined.

(* ------------------------------------------------------------------------- *)
(** ** When the identifiers are empty *)

Lemma hash_from_string_empty (s : string) : hash_from_string s = "" <-> s = "".
Proof.
  unfold hash_from_string. destruct (String.eqb_spec s "") as [->|Hs].
  - split; reflexivity.
  - split; [|contradiction]. intros H.
    pose proof (md5_hexdigest_length s) as HL. rewrite H in HL. discriminate.
Qed.

Lemma hash_from_string_length (s : string) :
  s <> "" -> String.length (hash_from_string s) = 32%nat.
Proof.
  intros Hs. unfold hash_from_string.
  destruct (String.eqb_spec s ""); [contradiction|].
  apply md5_hexdigest_length.
Qed.

(** The identifier of a constructed node is empty exactly when the platform
    reports no position or no size for it; otherwise it is a digest of 32
    characters. *)
Theorem identifier_empty_iff e ox oy d pvb :
  let node := new_UIElement e ox oy d pvb in
  (identifier node = ""
   <-> kAXPositionAttribute e = None \/ kAXSizeAttribute e = None)
  /\ (identifier node <> "" -> String.length (identifier node) = 32%nat).
Proof.
  cbv zeta. split.
  - destruct (kAXPositionAttribute e) as [p|] eqn:Hp;
      [destruct (kAXSizeAttribute e) as [s|] eqn:Hs|].
    + rewrite (new_UIElement_present e ox oy d pvb p s Hp Hs).
      cbn [identifier]. unfold component_hash.
      rewrite hash_from_string_empty. split; [|now intros [|]].
      intros H. exfalso. revert H. rewrite append_assoc.
      apply joined_pair_nonempty.
    + rewrite new_UIElement_absent by (now right). split; [now right|reflexivity].
    + rewrite new_UIElement_absent by (now left). split; [now left|reflexivity].
  - intros H. destruct (identifier_length e ox oy d pvb); [contradiction|].
    assumption.
Qed.

Lemma joined_empty (l : list string) :
  joined l = "" <-> Forall (fun s => s = "") l.
Proof.
  induction l as [|s l IH]; cbn [joined].
  - split; [constructor | reflexivity].
  - split.
    + intros H. destruct s; [|discriminate]. cbn in H.
      constructor; [reflexivity | now apply IH].
    + intros H. inversion H as [|? ? Hs Hl]; subst. cbn. now apply IH.
Qed.

Lemma concat_characters_empty (sep s : string) :
  String.concat sep (characters s) = "" <-> s = "".
Proof.
  destruct s as [|c s]; [split; reflexivity|].
  split; [|discriminate]. unfold characters. cbn [list_ascii_of_string map].
  destruct (map _ (list_ascii_of_string s)); discriminate.
Qed.

(** [sep.join(s)] with an empty separator gives [s] back. *)
Lemma concat_characters (s : string) : String.concat "" (characters s) = s.
Proof.
  rewrite concat_empty_separator. unfold characters.
  induction s as [|c s IH]; [reflexivity|].
  cbn [list_ascii_of_string map joined]. now rewrite IH.
Qed.

(** [children_content_hash] returns the empty string exactly when every
    child has an empty identifier (so for a node without children, but also
    for a node whose children all lack a position or a size); the content
    identifiers of the children play no part in this. Otherwise it is a
    digest of 32 characters. *)
Theorem content_identifier_empty_iff (children : list UIElement) :
  (children_content_hash children = ""
   <-> Forall (fun c => identifier c = "") children)
  /\ (children_content_hash children <> ""
      -> String.length (children_content_hash children) = 32%nat).
Proof.
  assert (H : children_content_hash children = ""
              <-> Forall (fun c => identifier c = "") children).
  { destruct children as [|c cs]; [split; [constructor | reflexivity]|].
    rewrite children_content_hash_nonempty by discriminate.
    rewrite hash_from_string_empty, concat_characters_empty.
    unfold content_structure_hash.
    rewrite hash_from_string_empty, concat_empty_separator, joined_empty.
    rewrite Forall_map. reflexivity. }
  split; [exact H|]. intros Hne.
  destruct children as [|c cs]; [now contradiction Hne|].
  rewrite children_content_hash_nonempty in * by discriminate.
  apply hash_from_string_length. intros E. apply Hne.
  now apply hash_from_string_empty.
Qed.

Lemma all_empty_sorted (l : list string) :
  Forall (fun s => s = "") l -> joined (StringSort.sort l) = "".
Proof.
  intros H. apply joined_empty. apply Forall_forall. intros s Hs.
  apply (proj1 (Forall_forall _ l) H).
  apply (Permutation_in s (Permutation_sym (StringSort.Permuted_sort l)) Hs).
Qed.

(** When no child has children of its own (all content identifiers are
    empty), the splice of [children_content_hash] does no harm: the result
    is the digest of the ordered-structure digest, which is also what the
    concatenation of the two digests gives. *)
Theorem content_hash_of_leaf_children (children : list UIElement) :
  Forall (fun c => content_identifier c = "") children ->
  children_content_hash children
  = hash_from_string (content_structure_hash children)
  /\ children_content_hash children = contentHash_spec children.
Proof.
  intros H. destruct children as [|c cs]; [split; reflexivity|].
  rewrite children_content_hash_nonempty by discriminate.
  assert (E : content_hash (c :: cs) = "").
  { unfold content_hash. rewrite concat_empty_separator, all_empty_sorted.
    - reflexivity.
    - now rewrite Forall_map. }
  unfold contentHash_spec. rewrite E, concat_characters. split; reflexivity.
Qed.

Lemma content_hash_of_leaf_children_witness :
  content_identifier Samples.window_node
  = hash_from_string (content_structure_hash [Samples.button_node])
  /\ content_identifier Samples.window_node
     = contentHash_spec [Samples.button_node].
Proof.
  apply (content_hash_of_leaf_children [Samples.button_node]).
  constructor; [vm_compute; reflexivity | constructor].
Defined.

Lemma identifier_empty_iff_witness :
  identifier Samples.unplaced_node = ""
  /\ String.length (identifier Samples.button_node) = 32%nat.
Proof.
  split.
  - apply (identifier_empty_iff Samples.unplaced 100 100 None
             Samples.window_box). left. reflexivity.
  - apply (identifier_empty_iff Samples.button 100 100 None
             Samples.window_box). vm_compute. discriminate.
Defined.

Lemma content_identifier_empty_iff_witness :
  children_content_hash [Samples.unplaced_node] = ""
  /\ String.length (children_content_hash [Samples.button_node]) = 32%nat.
Proof.
  split.
  - apply (content_identifier_empty_iff [Samples.unplaced_node]).
    constructor; [vm_compute; reflexivity | constructor].
  - apply (content_identifier_empty_iff [Samples.button_node]).
    vm_compute. discriminate.
Defined.

Lemma serialized_geometry_witness :
  dict_position (to_dict Samples.unplaced_node) = ""
  /\ dict_bbox (to_dict Samples.unplaced_node) = None
  /\ dict_bbox (to_dict Samples.window_node) <> None.
Proof.
  destruct (serialized_geometry Samples.unplaced 100 100 None
              Samples.window_box) as (H1 & _ & _ & H4 & _).
  destruct (serialized_geometry Samples.window 0 0 None None)
    as (_ & _ & _ & _ & H5).
  split; [apply H1; reflexivity|].
  split; [apply H4; left; apply H1; reflexivity|].
  apply H5. vm_compute. discriminate.
Defined.

(* ------------------------------------------------------------------------- *)
(** ** Well-formed boxes *)

Lemma Qnum_nonneg (q : Q) : (0 <= q)%Q <-> 0 <= Qnum q.
Proof. unfold Qle. cbn. lia. Qed.

Lemma Qnum_nonpos (q : Q) : (q <= 0)%Q <-> Qnum q <= 0.
Proof. unfold Qle. cbn. lia. Qed.

Lemma int_floor (q : Q) : 0 <= Qnum q -> int q = Qfloor q.
Proof.
  intros H. destruct q as [n dn]. cbn in *.
  apply Z.quot_div_nonneg; lia.
Qed.

Lemma int_ceiling (q : Q) : Qnum q <= 0 -> int q = Qceiling q.
Proof.
  intros H. destruct q as [n dn]. unfold int, Qceiling. cbn in *.
  rewrite <- (Z.opp_involutive n) at 1.
  rewrite Z.quot_opp_l by lia. f_equal.
  apply Z.quot_div_nonneg; lia.
Qed.

(** [int] is monotone. *)
Lemma int_le (q1 q2 : Q) : (q1 <= q2)%Q -> int q1 <= int q2.
Proof.
  intros H. destruct (Z.le_gt_cases 0 (Qnum q1)) as [H1|H1].
  - assert (0 <= Qnum q2)
      by (apply Qnum_nonneg; eapply Qle_trans; [apply Qnum_nonneg|]; eassumption).
    rewrite !int_floor by assumption. now apply Qfloor_resp_le.
  - destruct (Z.le_gt_cases (Qnum q2) 0) as [H2|H2].
    + rewrite !int_ceiling by lia. now apply Qceiling_resp_le.
    + rewrite int_ceiling, int_floor by lia.
      transitivity 0.
      * change 0 with (Qceiling 0). apply Qceiling_resp_le.
        apply Qnum_nonpos. lia.
      * change 0 with (Qfloor 0). apply Qfloor_resp_le.
        apply Qnum_nonneg. lia.
Qed.

Lemma _set_bboxes_well_formed (p : CGPoint) (s : CGSize) (pvb : option BBox) :
  (0 <= width s)%Q -> (0 <= height s)%Q ->
  well_formed_opt pvb ->
  let boxes := _set_bboxes (Some p) (Some s) pvb in
  well_formed_opt (fst boxes) /\ well_formed_opt (snd boxes)
  /\ (forall b v, fst boxes = Some b -> snd boxes = Some v -> inside v b).
Proof.
  intros Hw Hh Hpvb. cbv zeta. unfold _set_bboxes.
  assert (Hx : int (x p) <= int (x p + width s)).
  { apply int_le. rewrite <- (Qplus_0_r (x p)) at 1.
    apply Qplus_le_r. exact Hw. }
  assert (Hy : int (y p) <= int (y p + height s)).
  { apply int_le. rewrite <- (Qplus_0_r (y p)) at 1.
    apply Qplus_le_r. exact Hh. }
  set (b := mkBBox _ _ _ _).
  assert (Hb : well_formed b) by (split; assumption).
  destruct pvb as [pv|]; cbn [fst snd].
  - destruct ((bx0 b >? bx1 pv) || (by0 b >? by1 pv)
              || (bx1 b <? bx0 pv) || (by1 b <? by0 pv)) eqn:T; cbn [fst snd].
    + split; [exact Hb|]. split; [exact I | discriminate].
    + apply orb_false_elim in T; destruct T as [T T4].
      apply orb_false_elim in T; destruct T as [T T3].
      apply orb_false_elim in T; destruct T as [T1 T2].
      destruct Hb as [Hb1 Hb2]. destruct Hpvb as [Hp1 Hp2].
      split; [now split|]. split.
      * unfold well_formed_opt, well_formed. subst b.
        cbn [bx0 by0 bx1 by1] in *. lia.
      * intros b' v [= <-] [= <-]. unfold inside. subst b.
        cbn [bx0 by0 bx1 by1] in *. lia.
  - split; [exact Hb|]. split; [exact Hb|].
    intros b' v [= <-] [= <-]. unfold inside. lia.
Qed.

(** For every node of a constructed tree: if its size is not negative and
    the visible box it is clipped by (if any) is well-formed, then its box
    and its visible box are well-formed ([x0 <= x1] and [y0 <= y1]), and a
    visible box that is present lies inside the node's own box. *)
Theorem boxes_of_every_node e ox oy d pvb :
  every_node boxes_well_formed (ox, oy) pvb (new_UIElement e ox oy d pvb).
Proof.
  apply every_node_new_UIElement. clear.
  intros e ox oy d pvb Hsize Hpvb.
  pose proof (boxes_eq e ox oy d pvb) as HB. cbv zeta in HB.
  destruct (position (new_UIElement e ox oy d pvb)) as [p|];
    [destruct (size (new_UIElement e ox oy d pvb)) as [s|] eqn:Hs|].
  - destruct (Hsize s eq_refl) as [Hw Hh].
    pose proof (_set_bboxes_well_formed p s pvb Hw Hh Hpvb) as H.
    cbv zeta in H. rewrite <- HB in H. exact H.
  - injection HB as -> ->. split; [exact I|]. split; [exact I|]. discriminate.
  - injection HB as -> ->. split; [exact I|]. split; [exact I|]. discriminate.
Qed.

(* ------------------------------------------------------------------------- *)
(** ** The window list and [get_accessibility_tree] *)

Lemma get_all_windows_eq (running_apps : list NSRunningApplication) :
  get_all_windows running_apps
  = map entry_of (filter is_regular running_apps).
Proof.
  induction running_apps as [|app rest IH]; [reflexivity|].
  cbn [get_all_windows filter]. unfold is_regular at 1.
  destruct (activationPolicy app =? 0); cbn [negb]; [|exact IH].
  cbn [map]. rewrite IH. f_equal. unfold entry_of, has_window. f_equal.
  now destruct (get_application_windows app).
Qed.

Lemma get_application_windows_eq (app : NSRunningApplication) :
  get_application_windows app
  = match kAXWindowsAttribute app with Some l => l | None => [] end.
Proof.
  unfold get_application_windows.
  now destruct (kAXWindowsAttribute app) as [[|w ws]|].
Qed.

(** [get_all_windows] lists the applications with activation policy 0, in
    order, whether or not they have windows; an application whose windows
    cannot be read is listed without windows; and ["has_windows"] is true
    exactly for the entries that list a window. *)
Theorem get_all_windows_entries (running_apps : list NSRunningApplication) :
  let entries := get_all_windows running_apps in
  let regular := filter is_regular running_apps in
  map app_name entries = map localizedName regular
  /\ map pid entries = map processIdentifier regular
  /\ map frontmost entries = map isActive regular
  /\ map windows entries
     = map (fun app => match kAXWindowsAttribute app with
                       | Some l => l
                       | None => []
                       end) regular
  /\ Forall (fun w => has_windows w = true <-> windows w <> []) entries.
Proof.
  cbv zeta. rewrite get_all_windows_eq.
  repeat split; try (rewrite map_map; apply map_ext; intros app;
                     cbn; try apply get_application_windows_eq; reflexivity).
  apply Forall_map, Forall_forall. intros app _.
  unfold entry_of, has_window. cbn [has_windows windows].
  destruct (get_application_windows app); cbn; split;
    try discriminate; try reflexivity; intros H; now contradiction H.
Qed.

Lemma window_trees_eq raises (app_windows : list AXUIElementRef) :
  window_trees raises app_windows
  = map (fun window => to_dict (build window None))
        (filter (fun window => negb (raises window)) app_windows).
Proof.
  induction app_windows as [|w ws IH]; [reflexivity|].
  cbn [window_trees filter]. destruct (raises w); cbn [negb map];
    now rewrite IH.
Qed.

Lemma process_windows_eq raises
    (all_windows : list (AppEntry AXUIElementRef)) :
  process_windows raises all_windows
  = map (tree_entry raises)
        (filter (fun w => nonempty (windows w)) all_windows).
Proof.
  induction all_windows as [|w rest IH]; [reflexivity|].
  cbn [process_windows filter].
  destruct (windows w) as [|window ws] eqn:E; cbn [nonempty]; [exact IH|].
  cbn [map]. rewrite IH. f_equal. unfold tree_entry. now rewrite E.
Qed.

Lemma find_map {A B : Type} (f : A -> B) (p : B -> bool) (l : list A) :
  find p (map f l) = option_map f (find (fun a => p (f a)) l).
Proof.
  induction l as [|a l IH]; [reflexivity|]. cbn [map find].
  destruct (p (f a)); [reflexivity | exact IH].
Qed.

Lemma filter_map_swap {A B : Type} (f : A -> B) (p : B -> bool) (l : list A) :
  filter p (map f l) = map f (filter (fun a => p (f a)) l).
Proof.
  induction l as [|a l IH]; [reflexivity|]. cbn [map filter].
  destruct (p (f a)); cbn [map]; now rewrite IH.
Qed.

Lemma nonempty_map {A B : Type} (f : A -> B) (l : list A) :
  nonempty (map f l) = nonempty l.
Proof. now destruct l. Qed.

Lemma nonempty_true {A : Type} (l : list A) : nonempty l = true <-> l <> [].
Proof. destruct l; split; try discriminate; try reflexivity; now intros []. Qed.

Lemma existsb_process_windows raises (regular : list NSRunningApplication) :
  existsb (fun app => nonempty (windows app))
          (process_windows raises (map entry_of regular))
  = existsb (has_built_window raises) regular.
Proof.
  rewrite process_windows_eq, filter_map_swap, map_map.
  induction regular as [|app rest IH]; [reflexivity|].
  cbn [filter entry_of windows existsb]. fold (has_window app).
  assert (Hb : has_built_window raises app
               = nonempty (windows (tree_entry raises (entry_of app)))).
  { unfold tree_entry, entry_of, has_built_window, built_windows.
    cbn [windows]. now rewrite window_trees_eq, nonempty_map. }
  destruct (has_window app) eqn:E; cbn [map existsb].
  - rewrite Hb. f_equal. exact IH.
  - replace (has_built_window raises app) with false; [exact IH|].
    unfold has_built_window, built_windows. unfold has_window in E.
    now destruct (get_application_windows app).
Qed.

Lemma get_accessibility_tree_eq raises
    (running_apps : list NSRunningApplication) :
  get_accessibility_tree raises running_apps
  = match filter is_regular running_apps with
    | [] => Failure "No visible windows found in the system"
    | first :: rest =>
        if existsb (has_built_window raises) (first :: rest)
        then Success
               (localizedName
                  match find isActive (first :: rest) with
                  | Some app => app
                  | None => first
                  end)
               (map (fun app => tree_entry raises (entry_of app))
                    (filter has_window (first :: rest)))
        else Failure (no_accessible_windows
                        (map entry_of (first :: rest)))
    end.
Proof.
  unfold get_accessibility_tree. rewrite get_all_windows_eq.
  destruct (filter is_regular running_apps) as [|app rest]; [reflexivity|].
  change (map entry_of (app :: rest))
    with (entry_of app :: map entry_of rest) at 1.
  cbv iota. fold (map entry_of (app :: rest)).
  rewrite existsb_process_windows.
  destruct (existsb (has_built_window raises) (app :: rest)); cbn [negb];
    [|reflexivity].
  rewrite process_windows_eq, filter_map_swap, map_map, find_map.
  change (fun a0 => nonempty (windows (entry_of a0))) with has_window.
  change (fun a0 => frontmost (entry_of a0)) with isActive.
  f_equal. now destruct (find isActive (app :: rest)).
Qed.

Lemma existsb_has_built_window raises (regular : list NSRunningApplication) :
  existsb (has_built_window raises) regular = true
  <-> exists app, In app regular /\ built_windows raises app <> [].
Proof.
  rewrite existsb_exists. unfold has_built_window.
  split; intros (app & Hin & H); exists app; (split; [exact Hin|]);
    now apply nonempty_true.
Qed.

(** The outcomes of [get_accessibility_tree]. Without a regular
    application it fails with "No visible windows found in the system".
    With regular applications it succeeds exactly when the tree of at least
    one of their windows is built: when no regular application has a
    window, or the construction raises for every window there is, it fails
    with the message that lists the regular applications. *)
Theorem get_accessibility_tree_outcome
    (raises : AXUIElementRef -> bool)
    (running_apps : list NSRunningApplication) :
  let regular := filter is_regular running_apps in
  (regular = [] ->
   get_accessibility_tree raises running_apps
   = Failure "No visible windows found in the system")
  /\ (regular <> [] ->
      (forall app, In app regular -> built_windows raises app = []) ->
      get_accessibility_tree raises running_apps
      = Failure (no_accessible_windows (map entry_of regular)))
  /\ ((exists app, In app regular /\ built_windows raises app <> []) ->
      exists a l, get_accessibility_tree raises running_apps = Success a l).
Proof.
  cbv zeta. rewrite get_accessibility_tree_eq.
  destruct (filter is_regular running_apps) as [|app rest].
  - split; [reflexivity|]. split; [contradiction|].
    now intros (b & [] & _).
  - split; [discriminate|]. split.
    + intros _ Hnone.
      destruct (existsb (has_built_window raises) (app :: rest)) eqn:E;
        [|reflexivity].
      apply existsb_has_built_window in E. destruct E as (b & Hin & Hb).
      now rewrite (Hnone b Hin) in Hb.
    + intros H. apply existsb_has_built_window in H. rewrite H. eauto.
Qed.

Lemma get_accessibility_tree_outcome_witness :
  get_accessibility_tree Desktop.none_raises [Desktop.dock]
  = Failure "No visible windows found in the system"
  /\ get_accessibility_tree Desktop.none_raises
       [Desktop.finder; Desktop.agent]
     = Failure (no_accessible_windows
                  [entry_of Desktop.finder; entry_of Desktop.agent])
  /\ (get_accessibility_tree Desktop.all_raise Desktop.running_apps
      = Failure (no_accessible_windows
                   [entry_of Desktop.finder; entry_of Desktop.agent;
                    entry_of Desktop.safari])
      /\ application_line (entry_of Desktop.safari)
         = "- Safari (PID: 304, Active: False, Has Windows: True)")
  /\ exists a l,
       get_accessibility_tree Desktop.group_raises Desktop.running_apps
       = Success a l.
Proof.
  split; [|split; [|split]].
  - apply (get_accessibility_tree_outcome Desktop.none_raises [Desktop.dock]).
    reflexivity.
  - apply (get_accessibility_tree_outcome Desktop.none_raises
             [Desktop.finder; Desktop.agent]).
    + discriminate.
    + intros app [<-|[<-|[]]]; reflexivity.
  - split; [|reflexivity].
    apply (get_accessibility_tree_outcome Desktop.all_raise
             Desktop.running_apps).
    + discriminate.
    + intros app [<-|[<-|[<-|[]]]]; reflexivity.
  - apply (get_accessibility_tree_outcome Desktop.group_raises
             Desktop.running_apps).
    exists Desktop.safari. split; [cbn; tauto | discriminate].
Defined.

(** What a successful [get_accessibility_tree] reports: the regular
    applications that have a window, in order, each with
    [has_windows = True] and the dictionaries of the trees, built without a
    depth limit, of those of its windows for which the construction did not
    raise, in order; an entry may so be without trees, but one entry at
    least has a tree. As frontmost application it names the first regular
    application that is active or, when none is, the first regular
    application, whether or not it is among those reported. *)
Theorem get_accessibility_tree_success
    (raises : AXUIElementRef -> bool)
    (running_apps : list NSRunningApplication) (a : string)
    (l : list (AppEntry Dict)) :
  get_accessibility_tree raises running_apps = Success a l ->
  l = map (fun app =>
             mkAppEntry (localizedName app) (processIdentifier app)
                        (isActive app) true
                        (map (fun window => to_dict (build window None))
                             (built_windows raises app)))
          (filter has_window (filter is_regular running_apps))
  /\ (exists entry, In entry l /\ windows entry <> [])
  /\ option_map localizedName (named_frontmost running_apps) = Some a.
Proof.
  rewrite get_accessibility_tree_eq. unfold named_frontmost.
  destruct (filter is_regular running_apps) as [|app rest]; [discriminate|].
  destruct (existsb (has_built_window raises) (app :: rest)) eqn:Hex;
    [|discriminate].
  intros E.
  assert (Ha : a = localizedName
                     match find isActive (app :: rest) with
                     | Some app0 => app0
                     | None => app
                     end) by congruence.
  assert (Hl : l = map (fun app0 => tree_entry raises (entry_of app0))
                       (filter has_window (app :: rest))) by congruence.
  clear E.
  assert (Hl' : l = map (fun app0 =>
                           mkAppEntry (localizedName app0)
                             (processIdentifier app0) (isActive app0) true
                             (map (fun window => to_dict (build window None))
                                  (built_windows raises app0)))
                        (filter has_window (app :: rest))).
  { rewrite Hl. apply map_ext_in. intros b Hb. apply filter_In in Hb.
    unfold tree_entry, entry_of, built_windows.
    cbn [app_name pid frontmost has_windows windows].
    now rewrite (proj2 Hb), window_trees_eq. }
  split; [exact Hl'|]. split.
  - apply existsb_has_built_window in Hex. destruct Hex as (b & Hb & Hw).
    exists (mkAppEntry (localizedName b) (processIdentifier b) (isActive b)
              true
              (map (fun window => to_dict (build window None))
                   (built_windows raises b))).
    split.
    + rewrite Hl'.
      apply (in_map (fun app0 =>
                       mkAppEntry (localizedName app0)
                         (processIdentifier app0) (isActive app0) true
                         (map (fun window => to_dict (build window None))
                              (built_windows raises app0)))).
      apply filter_In. split; [exact Hb|].
      unfold has_window. unfold built_windows in Hw.
      destruct (get_application_windows b); [now contradiction Hw|].
      reflexivity.
    + cbn [windows]. intros E. apply map_eq_nil in E. contradiction.
  - rewrite Ha. now destruct (find isActive (app :: rest)).
Qed.

Lemma get_accessibility_tree_success_witness :
  get_accessibility_tree Desktop.group_raises Desktop.running_apps
  = Success "Finder"
      [mkAppEntry "Safari" 304 false true
         [to_dict (build Samples.window None)]]
  /\ [mkAppEntry "Safari" 304 false true
        [to_dict (build Samples.window None)]]
     = map (fun app =>
              mkAppEntry (localizedName app) (processIdentifier app)
                         (isActive app) true
                         (map (fun window => to_dict (build window None))
                              (built_windows Desktop.group_raises app)))
           (filter has_window (filter is_regular Desktop.running_apps)).
Proof.
  assert (E : get_accessibility_tree Desktop.group_raises
                Desktop.running_apps
              = Success "Finder"
                  [mkAppEntry "Safari" 304 false true
                     [to_dict (build Samples.window None)]])
    by (rewrite get_accessibility_tree_eq; reflexivity).
  split; [exact E|].
  apply (get_accessibility_tree_success Desktop.group_raises
           Desktop.running_apps "Finder" _ E).
Defined.

(* ------------------------------------------------------------------------- *)
(** ** [find_element] *)

Lemma first_result_firstn_eq {A R : Type} (f : A -> option R) (n : nat)
    (l : list A) :
  first_result_firstn f n l = first_result f (firstn n l).
Proof.
  revert l; induction n as [|n IH]; intros [|a l]; cbn; try reflexivity.
  destruct (f a); [reflexivity | apply IH].
Qed.

Lemma flat_map_firstn_eq {A B : Type} (f : A -> list B) (n : nat)
    (l : list A) :
  flat_map_firstn f n l = flat_map f (firstn n l).
Proof.
  revert l; induction n as [|n IH]; intros [|a l]; cbn; try reflexivity.
  now rewrite IH.
Qed.

Lemma find_app {A : Type} (p : A -> bool) (l1 l2 : list A) :
  find p (l1 ++ l2)
  = match find p l1 with Some a => Some a | None => find p l2 end.
Proof.
  induction l1 as [|a l1 IH]; [reflexivity|]. cbn [app find].
  destruct (p a); [reflexivity | exact IH].
Qed.

(** The children [element_attribute] returns, none when it returns
    [None]. *)
Lemma visited_eq (e : AXUIElementRef) :
  visited e
  = e :: flat_map visited
           match element_attribute_children e with
           | Some children => children
           | None => []
           end.
Proof.
  destruct e as [ro ti en po si de rd va ch vi rf].
  cbn [visited kAXChildrenAttribute ranged_read_fails]. f_equal.
  unfold element_attribute_children, AXUIElementCopyAttributeValues,
    AXUIElementCopyAttributeValue_children.
  cbn [kAXChildrenAttribute ranged_read_fails].
  destruct ch as [values|]; [|now destruct rf].
  destruct rf; cbn [option_map skipn]; [reflexivity|].
  apply flat_map_firstn_eq.
Qed.

Section FindElementProperties.

Variable str : option (CFValue AXUIElementRef) -> string.
Variable D : Type.
Variable serialize_node : AXUIElementRef -> D.
Variables role title value : option string.

Let matches := match_element str role title value.
Let search := search_tree str D serialize_node role title value.

Lemma search_tree_eq (e : AXUIElementRef) :
  search e
  = search_tree_call str D serialize_node role title value search e.
Proof.
  destruct e as [ro ti en po si de rd va ch vi rf].
  unfold search, search_tree_call. cbn [search_tree].
  destruct (match_element _ _ _ _ _); [reflexivity|].
  unfold element_attribute_children, AXUIElementCopyAttributeValues,
    AXUIElementCopyAttributeValue_children.
  cbn [kAXChildrenAttribute ranged_read_fails].
  destruct ch as [values|]; [|now destruct rf].
  destruct rf; cbn [option_map skipn]; [reflexivity|].
  apply first_result_firstn_eq.
Qed.

Lemma search_tree_first_match (system : AXUIElementRef) :
  find_element str D serialize_node role title value system
  = option_map serialize_node (find matches (visited system)).
Proof.
  unfold find_element. fold search.
  induction system as [e IHc _] using AXUIElementRef_tree_ind.
  rewrite search_tree_eq, visited_eq. unfold search_tree_call.
  cbn [find]. fold matches. destruct (matches e); [reflexivity|].
  unfold found_children in IHc.
  destruct (element_attribute_children e) as [children|]; [|reflexivity].
  induction children as [|c cs IH]; [reflexivity|].
  cbn [first_result flat_map]. rewrite find_app.
  inversion IHc as [|? ? Hc Hcs]; subst. rewrite Hc.
  destruct (find matches (visited c)); [reflexivity|]. now apply IH.
Qed.

(** [find_element] returns the first element, in depth-first order with
    parents before children, that passes [match_element], among the
    elements reached through what [element_attribute] returns for the
    children attribute of each element (the first 999 children, or all of
    them when the ranged read fails; visible children are not followed);
    and nothing when there is none. *)
Theorem find_element_first_match (system : AXUIElementRef) :
  find_element str D serialize_node role title value system
  = option_map serialize_node (find matches (visited system)).
Proof. apply search_tree_first_match. Qed.

End FindElementProperties.

Lemma rejects_false_iff (criterion actual : option string) :
  rejects criterion actual = false
  <-> forall c, criterion = Some c -> c <> "" -> actual = Some c.
Proof.
  unfold rejects. destruct criterion as [c|].
  - destruct (String.eqb_spec c "") as [->|Hc]; cbn [negb andb].
    + split; [|reflexivity]. intros _ c [= <-] H. now contradiction H.
    + destruct actual as [a|].
      * destruct (String.eqb_spec a c) as [->|Hac]; cbn [negb].
        -- split; [|reflexivity]. now intros _ c' [= <-] _.
        -- split; [discriminate|]. intros H. specialize (H c eq_refl Hc).
           congruence.
      * cbn [negb]. split; [discriminate|]. intros H.
        specialize (H c eq_refl Hc). discriminate.
  - split; [|reflexivity]. intros _ c [=].
Qed.

(** An element passes [match_element] exactly when it has the requested
    role and title and its value prints as the requested value; a criterion
    that is [None] or the empty string asks for nothing. *)
Lemma match_element_iff str role title value (e : AXUIElementRef) :
  match_element str role title value e = true
  <-> (forall c, role = Some c -> c <> "" -> kAXRoleAttribute e = Some c)
      /\ (forall c, title = Some c -> c <> "" -> kAXTitleAttribute e = Some c)
      /\ (forall c, value = Some c -> c <> "" ->
          str (kAXValueAttribute e) = c).
Proof.
  unfold match_element.
  rewrite <- !rejects_false_iff.
  destruct (rejects role _), (rejects title _);
    try (split; [discriminate | intros (? & ? & ?); discriminate]).
  destruct (rejects value (Some (str (kAXValueAttribute e)))) eqn:E.
  - split; [discriminate|]. intros (_ & _ & H).
    assert (rejects value (Some (str (kAXValueAttribute e))) = false).
    { apply rejects_false_iff. intros c Hc Hne. now rewrite (H c Hc Hne). }
    congruence.
  - split; [|reflexivity]. intros _. repeat split.
    intros c Hc Hne.
    pose proof (proj1 (rejects_false_iff _ _) E c Hc Hne) as H.
    now injection H.
Qed.

(** What [find_element] returns is the dictionary of a visited element
    that has the requested role and title and whose value prints as
    requested; and it returns nothing only when no visited element is like
    that. Criteria that are [None] or empty are ignored, so without
    criteria the system-wide element itself is returned. *)
Theorem find_element_correct
    (str : option (CFValue AXUIElementRef) -> string) (D : Type)
    (serialize_node : AXUIElementRef -> D) (role title value : option string)
    (system : AXUIElementRef) :
  let result := find_element str D serialize_node role title value system in
  (forall r, result = Some r ->
     exists e, In e (visited system) /\ r = serialize_node e
       /\ (forall c, role = Some c -> c <> "" -> kAXRoleAttribute e = Some c)
       /\ (forall c, title = Some c -> c <> "" ->
           kAXTitleAttribute e = Some c)
       /\ (forall c, value = Some c -> c <> "" ->
           str (kAXValueAttribute e) = c))
  /\ (result = None ->
      forall e, In e (visited system) ->
        match_element str role title value e = false)
  /\ ((role = None \/ role = Some "") ->
      (title = None \/ title = Some "") ->
      (value = None \/ value = Some "") ->
      result = Some (serialize_node system)).
Proof.
  cbv zeta. rewrite search_tree_first_match.
  split; [|split].
  - intros r Hr.
    destruct (find _ (visited system)) as [e|] eqn:E; [|discriminate].
    injection Hr as <-. apply find_some in E. destruct E as [Hin Hm].
    exists e. split; [exact Hin|]. split; [reflexivity|].
    now apply match_element_iff.
  - intros Hr e Hin.
    destruct (find _ (visited system)) as [e'|] eqn:E; [discriminate|].
    exact (find_none _ _ E e Hin).
  - intros Hrole Htitle Hvalue. rewrite visited_eq. cbn [find].
    assert (match_element str role title value system = true) as ->.
    { apply match_element_iff.
      repeat split; intros c Hc Hne;
        [destruct Hrole as [H|H] | destruct Htitle as [H|H]
         | destruct Hvalue as [H|H]]; congruence. }
    reflexivity.
Qed.

Lemma find_element_correct_witness :
  find_element (fun _ => "None") AXUIElementRef (fun e => e)
               None (Some "") None Samples.window3
  = Some Samples.window3
  /\ exists e,
       In e (visited Samples.window3)
       /\ find_element (fun _ => "None") AXUIElementRef (fun e => e)
                       (Some "AXButton") None None Samples.window3
          = Some e
       /\ kAXRoleAttribute e = Some "AXButton".
Proof.
  split.
  - apply (find_element_correct (fun _ => "None") AXUIElementRef
             (fun e => e) None (Some "") None Samples.window3); auto.
  - destruct (find_element_correct (fun _ => "None") AXUIElementRef
                (fun e => e) (Some "AXButton") None None Samples.window3)
      as (H & _ & _).
    destruct (H Samples.button eq_refl) as (e & Hin & He & Hrole & _).
    exists e. split; [exact Hin|]. split.
    + rewrite <- He. reflexivity.
    + apply (Hrole "AXButton" eq_refl). discriminate.
Defined.

(* ------------------------------------------------------------------------- *)
(** ** Formatting and truncation depend on the value only *)

Lemma Qeq_cross (q1 q2 : Q) :
  (q1 == q2)%Q ->
  (Qnum q1 * Zpos (Qden q2) # Qden q1 * Qden q2)
  = (Qnum q2 * Zpos (Qden q1) # Qden q2 * Qden q1).
Proof.
  unfold Qeq. intros H. rewrite H. now rewrite Pos.mul_comm.
Qed.

Lemma round_half_even_scale (n : Z) (d k : positive) :
  round_half_even (n * Zpos k # d * k) = round_half_even (n # d).
Proof.
  unfold round_half_even. cbn [Qnum Qden]. rewrite Pos2Z.inj_mul.
  rewrite Z.div_mul_cancel_r by lia. rewrite Z.mul_mod_distr_r by lia.
  set (m := n mod Zpos d). set (fl := n / Zpos d).
  destruct (Z.ltb_spec (2 * m) (Zpos d)),
           (Z.ltb_spec (2 * (m * Zpos k)) (Zpos d * Zpos k));
    try nia; try reflexivity.
  destruct (Z.ltb_spec (Zpos d) (2 * m)),
           (Z.ltb_spec (Zpos d * Zpos k) (2 * (m * Zpos k)));
    try nia; reflexivity.
Qed.

Lemma round_half_even_Qeq (q1 q2 : Q) :
  (q1 == q2)%Q -> round_half_even q1 = round_half_even q2.
Proof.
  intros H. destruct q1 as [n1 d1], q2 as [n2 d2].
  rewrite <- (round_half_even_scale n1 d1 d2),
          <- (round_half_even_scale n2 d2 d1).
  f_equal. exact (Qeq_cross (n1 # d1) (n2 # d2) H).
Qed.

Lemma negative_Qeq (q1 q2 : Q) :
  (q1 == q2)%Q -> (Qnum q1 <? 0) = (Qnum q2 <? 0).
Proof.
  unfold Qeq. intros H.
  destruct (Z.ltb_spec (Qnum q1) 0), (Z.ltb_spec (Qnum q2) 0);
    try reflexivity; nia.
Qed.

Lemma format_0f_Qeq (q1 q2 : Q) : (q1 == q2)%Q -> format_0f q1 = format_0f q2.
Proof.
  intros H. unfold format_0f.
  now rewrite (round_half_even_Qeq q1 q2 H), (negative_Qeq q1 q2 H).
Qed.

Lemma format_2f_Qeq (q1 q2 : Q) : (q1 == q2)%Q -> format_2f q1 = format_2f q2.
Proof.
  intros H. unfold format_2f.
  rewrite (round_half_even_Qeq (q1 * 100) (q2 * 100))
    by (now rewrite H).
  now rewrite (negative_Qeq q1 q2 H).
Qed.

Lemma int_Qeq (q1 q2 : Q) : (q1 == q2)%Q -> int q1 = int q2.
Proof.
  intros H. destruct q1 as [n1 d1], q2 as [n2 d2]. unfold int, Qeq in *.
  cbn [Qnum Qden] in *.
  rewrite <- (Z.quot_mul_cancel_r n1 (Zpos d1) (Zpos d2)) by lia.
  rewrite <- (Z.quot_mul_cancel_r n2 (Zpos d2) (Zpos d1)) by lia.
  rewrite H. f_equal. lia.
Qed.

(* ------------------------------------------------------------------------- *)
(** ** Moving a window on the screen *)

Lemma moved_attributes tx ty e :
  kAXRoleAttribute (moved tx ty e) = kAXRoleAttribute e
  /\ kAXTitleAttribute (moved tx ty e) = kAXTitleAttribute e
  /\ kAXEnabledAttribute (moved tx ty e) = kAXEnabledAttribute e
  /\ kAXSizeAttribute (moved tx ty e) = kAXSizeAttribute e
  /\ kAXDescriptionAttribute (moved tx ty e) = kAXDescriptionAttribute e
  /\ kAXRoleDescriptionAttribute (moved tx ty e)
     = kAXRoleDescriptionAttribute e
  /\ kAXPositionAttribute (moved tx ty e)
     = option_map (fun p => mkCGPoint (x p + tx) (y p + ty))
                  (kAXPositionAttribute e)
  /\ found_children (moved tx ty e) = map (moved tx ty) (found_children e).
Proof.
  destruct e as [ro ti en po si de rd va ch vi rf].
  repeat (split; [reflexivity|]).
  unfold found_children, element_attribute_children,
    AXUIElementCopyAttributeValues, AXUIElementCopyAttributeValue_children.
  cbn [moved kAXChildrenAttribute kAXVisibleChildrenAttribute
       ranged_read_fails].
  destruct ch as [l|].
  - destruct rf; cbn [option_map skipn]; [reflexivity|]. apply firstn_map.
  - destruct rf; cbn [option_map]; destruct vi; reflexivity.
Qed.

Lemma moved_value tx ty e :
  kAXValueAttribute (moved tx ty e)
  = match kAXValueAttribute e with
    | Some (AXUIElementValue v) => Some (AXUIElementValue (moved tx ty v))
    | Some (NSArray items) => Some (NSArray items)
    | Some (CFScalarValue s) => Some (CFScalarValue s)
    | None => None
    end.
Proof. destruct e; reflexivity. Qed.

Lemma In_firstn {A : Type} (a : A) (n : nat) (l : list A) :
  In a (firstn n l) -> In a l.
Proof.
  revert l; induction n as [|n IH]; intros [|b l]; cbn; try contradiction.
  intros [H|H]; [now left | right; now apply IH].
Qed.

Lemma elements_eq (e : AXUIElementRef) :
  elements e
  = (e :: match kAXChildrenAttribute e with
          | Some l => flat_map elements l
          | None => []
          end
       ++ match kAXVisibleChildrenAttribute e with
          | Some l => flat_map elements l
          | None => []
          end
       ++ match kAXValueAttribute e with
          | Some (AXUIElementValue v) => elements v
          | _ => []
          end)%list.
Proof. destruct e; reflexivity. Qed.

Lemma elements_self (e : AXUIElementRef) : In e (elements e).
Proof. rewrite elements_eq. now left. Qed.

Lemma elements_of_child (e c w : AXUIElementRef) :
  In c (found_children e) -> In w (elements c) -> In w (elements e).
Proof.
  intros Hc Hw. rewrite elements_eq. right.
  unfold found_children, element_attribute_children,
    AXUIElementCopyAttributeValues, AXUIElementCopyAttributeValue_children
    in Hc.
  destruct (kAXChildrenAttribute e) as [l|].
  - apply in_or_app. left. apply in_flat_map. exists c.
    split; [|exact Hw].
    destruct (ranged_read_fails e); cbn [option_map skipn] in Hc;
      [exact Hc | now apply In_firstn in Hc].
  - assert (Hc' : In c match kAXVisibleChildrenAttribute e with
                       | Some v => v | None => [] end)
      by (destruct (ranged_read_fails e); exact Hc).
    clear Hc. rename Hc' into Hc.
    destruct (kAXVisibleChildrenAttribute e) as [l|]; [|contradiction].
    apply in_or_app. right. apply in_or_app. left.
    apply in_flat_map. now exists c.
Qed.

Lemma elements_of_value (e v w : AXUIElementRef) :
  kAXValueAttribute e = Some (AXUIElementValue v) ->
  In w (elements v) -> In w (elements e).
Proof.
  intros Hv Hw. rewrite elements_eq. right.
  apply in_or_app. right. apply in_or_app. right. now rewrite Hv.
Qed.

Lemma windows_stay_child tx ty e c :
  windows_stay_on_screen tx ty e -> In c (found_children e) ->
  windows_stay_on_screen tx ty c.
Proof.
  intros H Hc w p Hw. apply H. eapply elements_of_child; eassumption.
Qed.

Lemma windows_stay_value tx ty e v :
  windows_stay_on_screen tx ty e ->
  kAXValueAttribute e = Some (AXUIElementValue v) ->
  windows_stay_on_screen tx ty v.
Proof.
  intros H Hv w p Hw. apply H. eapply elements_of_value; eassumption.
Qed.

(** The origin an element hands down moves with the element. *)
Lemma origin_moved tx ty e (o o' : Q * Q) (p : CGPoint) :
  windows_stay_on_screen tx ty e ->
  kAXPositionAttribute e = Some p ->
  moved_offsets tx ty o o' ->
  moved_offsets tx ty (origin e (fst o) (snd o))
                (origin (moved tx ty e) (fst o') (snd o')).
Proof.
  intros Hw Hp Ho. unfold origin, role_of.
  destruct (moved_attributes tx ty e) as (-> & _ & _ & _ & _ & _ & -> & _).
  rewrite Hp. cbn [option_map x y].
  destruct ((match kAXRoleAttribute e with
             | Some r => r | None => "No role" end =? "AXWindow")%string)
    eqn:E.
  - apply String.eqb_eq in E.
    destruct (Hw e p (elements_self e) E Hp) as (H1 & H2 & H3 & H4).
    unfold moved_offsets. cbn [fst snd].
    now rewrite !pymax_0_nonneg by assumption.
  - now destruct o, o'.
Qed.

Lemma relative_moved tx ty (p : CGPoint) (o o' : Q * Q) :
  moved_offsets tx ty o o' ->
  (x (relative (mkCGPoint (x p + tx) (y p + ty)) o') == x (relative p o))%Q
  /\ (y (relative (mkCGPoint (x p + tx) (y p + ty)) o')
      == y (relative p o))%Q.
Proof.
  intros [Hx Hy]. unfold relative. cbn [x y]. rewrite Hx, Hy. split; ring.
Qed.

Lemma _set_bboxes_Qeq (p q : CGPoint) (s : option CGSize) (pvb : option BBox) :
  (x p == x q)%Q -> (y p == y q)%Q ->
  _set_bboxes (Some p) s pvb = _set_bboxes (Some q) s pvb.
Proof.
  intros Hx Hy. unfold _set_bboxes. destruct s as [s|]; [|reflexivity].
  rewrite (int_Qeq (x p) (x q) Hx), (int_Qeq (y p) (y q) Hy).
  rewrite (int_Qeq (x p + width s) (x q + width s)) by (now rewrite Hx).
  rewrite (int_Qeq (y p + height s) (y q + height s)) by (now rewrite Hy).
  reflexivity.
Qed.

Lemma component_hash_Qeq (p q : CGPoint) s en ro :
  (x p == x q)%Q -> (y p == y q)%Q ->
  component_hash (Some p) s en ro = component_hash (Some q) s en ro.
Proof.
  intros Hx Hy. unfold component_hash. destruct s; [|reflexivity].
  now rewrite (format_0f_Qeq _ _ Hx), (format_0f_Qeq _ _ Hy).
Qed.

Lemma children_content_hash_ext (cs cs' : list UIElement) :
  map identifier cs = map identifier cs' ->
  map content_identifier cs = map content_identifier cs' ->
  children_content_hash cs = children_content_hash cs'.
Proof.
  intros Hi Hc. unfold children_content_hash, content_hash,
    content_structure_hash.
  rewrite Hi, Hc.
  replace (List.length cs) with (List.length cs'); [reflexivity|].
  now rewrite <- (length_map identifier cs), Hi, length_map.
Qed.

Lemma same_after_move_lists (l' l : list UIElement) :
  Forall2 same_after_move l' l ->
  map (fun n => without_absolute_position (to_dict n)) l'
  = map (fun n => without_absolute_position (to_dict n)) l
  /\ map identifier l' = map identifier l
  /\ map content_identifier l' = map content_identifier l.
Proof.
  induction 1 as [|a b l' l (Hd & Hi & Hc & _) _ (IHd & IHi & IHc)];
    [repeat split|].
  cbn [map]. now rewrite Hd, Hi, Hc, IHd, IHi, IHc.
Qed.

Lemma format_pair_Qeq (p q : CGPoint) :
  (x p == x q)%Q -> (y p == y q)%Q ->
  (format_2f (x p) ++ ";" ++ format_2f (y p))%string
  = (format_2f (x q) ++ ";" ++ format_2f (y q))%string.
Proof.
  intros Hx Hy. now rewrite (format_2f_Qeq _ _ Hx), (format_2f_Qeq _ _ Hy).
Qed.

Lemma move_invariant tx ty e :
  forall ox oy ox' oy' d pvb,
    windows_stay_on_screen tx ty e ->
    (kAXPositionAttribute e = None
     \/ moved_offsets tx ty (origin e ox oy)
                      (origin (moved tx ty e) ox' oy')) ->
    same_after_move (new_UIElement (moved tx ty e) ox' oy' d pvb)
                    (new_UIElement e ox oy d pvb).
Proof.
  induction e as [e IHc IHv] using AXUIElementRef_tree_ind.
  intros ox oy ox' oy' d pvb Hw Ho.
  destruct (moved_attributes tx ty e)
    as (Hro & Hti & Hen & Hsi & Hde & Hrd & Hpo & Hch).
  pose proof (moved_value tx ty e) as Hva.
  assert (Hrole : role_of (moved tx ty e) = role_of e)
    by (unfold role_of; now rewrite Hro).
  assert (Henab : enabled_of (moved tx ty e) = enabled_of e)
    by (unfold enabled_of; now rewrite Hen).
  destruct (kAXPositionAttribute e) as [p|] eqn:Ep;
    [destruct (kAXSizeAttribute e) as [s|] eqn:Es|].
  - (* position and size *)
    destruct Ho as [Ho|Ho]; [discriminate|].
    cbn [option_map] in Hpo.
    rewrite (new_UIElement_present (moved tx ty e) ox' oy' d pvb _ s Hpo Hsi).
    rewrite (new_UIElement_present e ox oy d pvb p s Ep Es).
    set (o := origin e ox oy) in *.
    set (o' := origin (moved tx ty e) ox' oy') in *.
    destruct (relative_moved tx ty p o o' Ho) as [Hx Hy].
    rewrite (_set_bboxes_Qeq _ _ (Some s) pvb Hx Hy).
    rewrite (component_hash_Qeq _ _ (Some s) (enabled_of (moved tx ty e))
               (role_of (moved tx ty e)) Hx Hy).
    set (vb := snd (_set_bboxes (Some (relative p o)) (Some s) pvb)).
    assert (Hkids : Forall2 same_after_move
              (_get_children new_UIElement d vb (moved tx ty e)
                             (fst o') (snd o'))
              (_get_children new_UIElement d vb e (fst o) (snd o))).
    { unfold _get_children. destruct (expands d); [|constructor].
      rewrite Hch. clear Hch.
      assert (Hin : forall c, In c (found_children e) ->
                              In c (found_children e)) by trivial.
      revert Hin IHc. generalize (found_children e) at 1 3 4 5.
      induction l as [|c l IHl]; intros Hin IHc; cbn [map]; constructor.
      - apply Forall_inv in IHc. apply IHc.
        + eapply windows_stay_child; [exact Hw | apply Hin; now left].
        + destruct (kAXPositionAttribute c) as [pc|] eqn:Ec; [right|now left].
          apply (origin_moved tx ty c o o' pc); try assumption.
          eapply windows_stay_child; [exact Hw | apply Hin; now left].
      - apply IHl; [intros c' Hc'; apply Hin; now right|].
        now apply Forall_inv_tail in IHc. }
    apply same_after_move_lists in Hkids. destruct Hkids as (Kd & Ki & Kc).
    assert (Hval : match value_of new_UIElement (moved tx ty e) o' with
                   | Some (PyUIElement u) =>
                       Some (PyUIElement (without_absolute_position (to_dict u)))
                   | Some (PyScalar sc) => Some (PyScalar sc)
                   | Some (PyList items) => Some (PyList items)
                   | None => None
                   end
                   = match value_of new_UIElement e o with
                     | Some (PyUIElement u) =>
                         Some (PyUIElement
                                 (without_absolute_position (to_dict u)))
                     | Some (PyScalar sc) => Some (PyScalar sc)
                     | Some (PyList items) => Some (PyList items)
                     | None => None
                     end).
    { unfold value_of. rewrite Hva.
      destruct (kAXValueAttribute e) as [[sc|items|v]|] eqn:Ev;
        try reflexivity.
      do 2 f_equal. apply IHv.
      - eapply windows_stay_value; eassumption.
      - destruct (kAXPositionAttribute v) as [pv|] eqn:Epv; [right|now left].
        apply (origin_moved tx ty v o o' pv); try assumption.
        eapply windows_stay_value; eassumption. }
    unfold same_after_move.
    cbn [identifier content_identifier visible_bbox].
    rewrite Hrole, Henab.
    repeat split; try reflexivity.
    + cbn [to_dict without_absolute_position dict_id dict_name dict_role
             dict_description dict_role_description dict_value
             dict_position dict_size dict_enabled dict_bbox dict_visible_bbox
             dict_children identifier name role description role_description
             value absolute_position position size enabled bbox visible_bbox
             children].
      rewrite !map_map.
      fold vb. rewrite Kd, Hti, Hde, Hrd.
      rewrite (format_pair_Qeq _ _ Hx Hy).
      f_equal.
      destruct (value_of new_UIElement (moved tx ty e) o') as [[?|?|?]|],
               (value_of new_UIElement e o) as [[?|?|?]|];
        cbn in Hval |- *; congruence.
    + now apply children_content_hash_ext.
  - (* a position and no size *)
    destruct Ho as [Ho|Ho]; [discriminate|].
    cbn [option_map] in Hpo.
    rewrite !new_UIElement_absent by (right; congruence).
    rewrite Hpo, Ep, Hsi, Es, Hrole, Henab, Hti. cbn [option_map].
    destruct (relative_moved tx ty p _ _ Ho) as [Hx Hy].
    unfold same_after_move.
    cbn [identifier content_identifier visible_bbox].
    repeat split; try reflexivity.
    cbn [to_dict without_absolute_position dict_id dict_name dict_role
           dict_description dict_role_description dict_value
           dict_position dict_size dict_enabled dict_bbox dict_visible_bbox
           dict_children identifier name role description role_description
           value absolute_position position size enabled bbox visible_bbox
           children map].
    now rewrite (format_pair_Qeq _ _ Hx Hy).
  - (* no position *)
    cbn [option_map] in Hpo.
    rewrite !new_UIElement_absent by (left; congruence).
    rewrite Hpo, Ep, Hsi, Hrole, Henab, Hti. cbn [option_map].
    unfold same_after_move. repeat split; reflexivity.
Qed.

(** Where a window is on the screen does not show in its tree: when a
    window and everything in it moves by [(tx, ty)], and the windows of the
    tree are at non-negative coordinates before and after, the dictionary
    of the tree changes in its ["absolute_position"] entries only, and the
    identifier and the content identifier of the window are the same.
    Coordinates are exact rationals; the subtractions of the constructor
    are exact on doubles as well when the coordinates are whole or half
    points. *)
Theorem moving_a_window tx ty e d :
  kAXRoleAttribute e = Some "AXWindow" ->
  windows_stay_on_screen tx ty e ->
  without_absolute_position (to_dict (build (moved tx ty e) d))
  = without_absolute_position (to_dict (build e d))
  /\ identifier (build (moved tx ty e) d) = identifier (build e d)
  /\ content_identifier (build (moved tx ty e) d)
     = content_identifier (build e d).
Proof.
  intros Hr Hw. unfold build.
  destruct (move_invariant tx ty e 0 0 0 0 d None Hw) as (Hd & Hi & Hc & _);
    [|now repeat split].
  destruct (kAXPositionAttribute e) as [p|] eqn:Hp; [right|now left].
  assert (H : moved_offsets tx ty (x p, y p) (x p + tx, y p + ty)%Q).
  { destruct (Hw e p (elements_self e)) as (H1 & H2 & H3 & H4);
      [unfold role_of; now rewrite Hr | exact Hp|].
    unfold moved_offsets. cbn [fst snd].
    now rewrite !pymax_0_nonneg by assumption. }
  unfold origin, role_of.
  destruct (moved_attributes tx ty e) as (-> & _ & _ & _ & _ & _ & -> & _).
  rewrite Hr, Hp. exact H.
Qed.

Lemma moving_a_window_witness :
  without_absolute_position
    (to_dict (build (moved 30 40 Samples.window3) None))
  = without_absolute_position (to_dict (build Samples.window3 None))
  /\ identifier (build (moved 30 40 Samples.window3) None)
     = identifier (build Samples.window3 None)
  /\ content_identifier (build (moved 30 40 Samples.window3) None)
     = content_identifier (build Samples.window3 None).
Proof.
  apply (moving_a_window 30 40 Samples.window3 None); [reflexivity|].
  intros w p Hin Hrole Hp.
  cbn in Hin. destruct Hin as [<-|[<-|[<-|[]]]]; try discriminate Hrole.
  injection Hp as <-. cbn [x y]. repeat split; discriminate.
Defined.
